(** * Density-matrix device of torchquantum: [torchquantum/device/noisedevices.py]

    A shallow embedding of [NoiseModel] and [NoiseDevice] and of the torch
    operations they call, followed by the properties of the state buffer,
    its views and the operation ledger.

    Conventions of the embedding.
    - Scalars.  Tensor entries are complex numbers over a commutative ring
      of "reals" with a square-root operation (class [Scalar]); arithmetic
      is exact, rounding of machine floats is not modelled.  The integers
      are an instance, used to run the definitions on examples.
    - Tensors.  A tensor value is a shape and its entries in row-major
      (logical) order.  How a tensor lies in memory matters to [view]
      alone, which refuses shapes that the strides do not allow; the
      strides of the tensors a caller holds are given by [strides_of].
    - Identity.  Tensors held by a device or handed in by a caller are
      references into a store of storages, so that sharing and copying can
      be told apart.  Results handed back by the views are values.
    - Integers.  [n_wires] and [bsz] are natural numbers and shapes are
      lists of natural numbers; an index, and a requested shape with its
      possible [-1], are integers.
    - Exceptions.  A Python exception ends the call; whatever was assigned
      before it stays assigned, so every call returns an outcome together
      with the state it leaves behind. *)

From Stdlib Require Import ZArith Ring Lia.
From Stdlib Require Import setoid_ring.InitialRing.
From stdpp Require Import base list strings gmap.

(** ** Scalars *)

(** The real numbers underneath the complex dtype [C_DTYPE]. *)
Class Scalar : Type := MkScalar {
  real : Type;
  r0 : real;
  r1 : real;
  radd : real -> real -> real;
  rmul : real -> real -> real;
  rsub : real -> real -> real;
  ropp : real -> real;
  rsqrt : real -> real;
  real_ring : ring_theory r0 r1 radd rmul rsub ropp eq;
  rsqrt_0 : rsqrt r0 = r0;
  rsqrt_1 : rsqrt r1 = r1
}.

#[global] Instance Z_scalar : Scalar :=
  MkScalar Z 0%Z 1%Z Z.add Z.mul Z.sub Z.opp Z.sqrt Zth eq_refl eq_refl.

Section Complex.
Context {SC : Scalar}.

Definition complex : Type := (real * real)%type.

Definition c0 : complex := (r0, r0).
Definition c1 : complex := (r1, r0).
Definition cadd (x y : complex) : complex := (radd (fst x) (fst y), radd (snd x) (snd y)).
Definition cmul (x y : complex) : complex :=
  (rsub (rmul (fst x) (fst y)) (rmul (snd x) (snd y)),
   radd (rmul (fst x) (snd y)) (rmul (snd x) (fst y))).
Definition cconj (x : complex) : complex := (fst x, ropp (snd x)).
Definition cnormsq (x : complex) : real := radd (rmul (fst x) (fst x)) (rmul (snd x) (snd x)).
Definition cabs (x : complex) : real := rsqrt (cnormsq x).

(** Accumulating sums, left to right. *)
Definition csum (l : list complex) : complex := foldl cadd c0 l.
Definition rsum (l : list real) : real := foldl radd r0 l.

End Complex.

(** ** Outcomes of a call *)

Inductive Exn : Type := AssertionError | IndexError | RuntimeError.

Inductive Outcome (A : Type) : Type :=
| Ok (a : A)
| Raise (e : Exn).
Arguments Ok {A} a.
Arguments Raise {A} e.

Definition is_raise {A} (o : Outcome A) : bool :=
  match o with Ok _ => false | Raise _ => true end.

(** A call runs on a state [S]: it returns its outcome and the state it
    leaves, also when it raises. *)
Definition Exec (S A : Type) : Type := S -> Outcome A * S.

Definition exec_ret {S A} (a : A) : Exec S A := fun s => (Ok a, s).
Definition exec_bind {S A B} (k : A -> Exec S B) (m : Exec S A) : Exec S B :=
  fun s => match m s with
           | (Ok a, s') => k a s'
           | (Raise e, s') => (Raise e, s')
           end.
Definition lift {S A} (o : Outcome A) : Exec S A := fun s => (o, s).
Definition py_assert {S} (b : bool) : Exec S unit :=
  if b then exec_ret tt else lift (Raise AssertionError).

#[global] Instance Exec_ret S : MRet (Exec S) := @exec_ret S.
#[global] Instance Exec_bind S : MBind (Exec S) := @exec_bind S.

(** ** Tensor values *)

Record Tensor (A : Type) : Type := mkTensor { shape : list nat; data : list A }.
Arguments mkTensor {A} shape data.
Arguments shape {A} t.
Arguments data {A} t.

Definition numel (s : list nat) : nat := foldr Nat.mul 1 s.

(** [t.dim()] *)
Definition dim {A} (t : Tensor A) : Z := Z.of_nat (length (shape t)).

(** [count] consecutive chunks of [size] entries. *)
Definition chunks {A} (count size : nat) (l : list A) : list (list A) :=
  reshape (replicate count size) l.

(** Size inference of [reshape] and [view]: one entry of the requested
    shape may be [-1]. *)
Fixpoint scan_sizes (spec : list Z) : Outcome (bool * nat) :=
  match spec with
  | [] => Ok (false, 1)
  | d :: rest =>
      match scan_sizes rest with
      | Raise e => Raise e
      | Ok (inf, sz) =>
          if (d =? -1)%Z then (if inf then Raise RuntimeError else Ok (true, sz))
          else if (0 <=? d)%Z then Ok (inf, Z.to_nat d * sz)
          else Raise RuntimeError
      end
  end.

Definition infer_size (spec : list Z) (n : nat) : Outcome (list nat) :=
  match scan_sizes spec with
  | Raise e => Raise e
  | Ok (inf, newsize) =>
      if (n =? newsize) || (inf && (0 <? newsize) && (n mod newsize =? 0))
      then if inf
           then (if newsize =? 0 then Raise RuntimeError
                 else Ok ((fun d => if (d =? -1)%Z then n / newsize else Z.to_nat d) <$> spec))
           else Ok (Z.to_nat <$> spec)
      else Raise RuntimeError
  end.

(** A Python list of non-negative ints, as passed for a shape. *)
Definition py_shape (l : list nat) : list Z := Z.of_nat <$> l.

(** [torch.reshape(t, spec)]: never fails on the strides, it copies when
    it must. *)
Definition torch_reshape {A} (t : Tensor A) (spec : list Z) : Outcome (Tensor A) :=
  match infer_size spec (numel (shape t)) with
  | Ok s => Ok (mkTensor s (data t))
  | Raise e => Raise e
  end.

(** The strides of a contiguous tensor of the given shape. *)
Fixpoint contiguous_strides (s : list nat) : list nat :=
  match s with
  | [] => []
  | _ :: rest =>
      let r := contiguous_strides rest in
      match rest, r with
      | size :: _, stride :: _ => Nat.max size 1 * stride
      | _, _ => 1
      end :: r
  end.

(** One stride for each axis; a missing stride counts as 0. *)
Definition with_strides (s strides : list nat) : list (nat * nat) :=
  zip s (strides ++ replicate (length s) 0).

(** The axes of the requested shape, from the last one on, that one chunk
    of [chunk_numel] entries takes: axes are taken while the chunk is
    not filled, and axes of size 1 are taken along. *)
Fixpoint take_view_axes (view_rev : list nat) (view_numel chunk_numel : nat)
  : list nat * nat :=
  match view_rev with
  | [] => ([], view_numel)
  | v :: rest =>
      if (view_numel <? chunk_numel) || (v =? 1)
      then take_view_axes rest (view_numel * v) chunk_numel
      else (view_rev, view_numel)
  end.

(** The axes of the tensor, from the last one on.  Neighbouring axes
    belong to one chunk when the outer one has size 1 or its stride is
    the extent of what is to its right; every chunk must be exactly filled
    by axes of the requested shape. *)
Fixpoint match_chunks (old_rev : list (nat * nat)) (view_rev : list nat)
    (tensor_numel chunk_base_stride : nat) : bool :=
  match old_rev with
  | [] => true
  | (size, _) :: outer =>
      let tensor_numel := tensor_numel * size in
      match outer with
      | [] =>
          let '(view_rev', view_numel) := take_view_axes view_rev 1 tensor_numel in
          (view_numel =? tensor_numel) && match view_rev' with [] => true | _ => false end
      | (lsize, lstride) :: _ =>
          if negb (lsize =? 1) && negb (lstride =? tensor_numel * chunk_base_stride)
          then
            let '(view_rev', view_numel) := take_view_axes view_rev 1 tensor_numel in
            (view_numel =? tensor_numel) && match_chunks outer view_rev' 1 lstride
          else match_chunks outer view_rev tensor_numel chunk_base_stride
      end
  end.

(** Whether a tensor of shape [s] and the given strides can be viewed in
    shape [view] (with as many entries) without copying. *)
Definition view_ok (s strides view : list nat) : bool :=
  match reverse (with_strides s strides) with
  | [] => true
  | (size, stride) :: outer =>
      if numel s =? 0 then true
      else match_chunks ((size, stride) :: outer) (reverse view) 1 stride
  end.

(** [t.view(spec)] for a tensor with the given strides: the size is
    inferred as for [reshape], then the strides must allow the shape. *)
Definition torch_view {A} (t : Tensor A) (strides : list nat) (spec : list Z)
  : Outcome (Tensor A) :=
  match infer_size spec (numel (shape t)) with
  | Ok s =>
      if view_ok (shape t) strides s then Ok (mkTensor s (data t))
      else Raise RuntimeError
  | Raise e => Raise e
  end.

(** [t[index]] for an int [index]: the slice along the first axis. *)
Definition torch_select {A} (t : Tensor A) (index : Z) : Outcome (Tensor A) :=
  match shape t with
  | [] => Raise IndexError
  | b :: rest =>
      if (- Z.of_nat b <=? index)%Z && (index <? Z.of_nat b)%Z then
        let i := Z.to_nat (if (index <? 0)%Z then index + Z.of_nat b else index)%Z in
        Ok (mkTensor rest (take (numel rest) (drop (i * numel rest) (data t))))
      else Raise IndexError
  end.

(** [t.shape[0]] *)
Definition shape0 {A} (t : Tensor A) : Outcome nat :=
  match shape t with
  | [] => Raise IndexError
  | b :: _ => Ok b
  end.

(** [t.repeat(sizes...)]: the shape is padded with leading ones up to the
    length of [sizes], then every axis is tiled. *)
Fixpoint tile {A} (shp reps : list nat) (d : list A) : list A :=
  match shp, reps with
  | s :: shp', r :: reps' =>
      mjoin (replicate r (mjoin (tile shp' reps' <$> chunks s (numel shp') d)))
  | _, _ => d
  end.

Definition torch_repeat {A} (t : Tensor A) (sizes : list nat) : Outcome (Tensor A) :=
  if length sizes <? length (shape t) then Raise RuntimeError
  else
    let padded := replicate (length sizes - length (shape t)) 1 ++ shape t in
    Ok (mkTensor (zip_with Nat.mul padded sizes) (tile padded sizes (data t))).

Section Torch.
Context {SC : Scalar}.

(** *** Matrices stored row by row *)

Definition mat_diag (r c : nat) (d : list complex) : list complex :=
  (fun k => nth (k * c + k) d c0) <$> seq 0 (min r c).

Definition mat_transpose (r c : nat) (d : list complex) : list complex :=
  mjoin ((fun j => (fun i => nth (i * c + j) d c0) <$> seq 0 r) <$> seq 0 c).

Definition mat_mul (n m p : nat) (a b : list complex) : list complex :=
  mjoin ((fun i =>
            (fun j => csum ((fun k => cmul (nth (i * m + k) a c0) (nth (k * p + j) b c0))
                              <$> seq 0 m))
              <$> seq 0 p)
           <$> seq 0 n).

(** *** Element-wise operations *)

Definition torch_conj (t : Tensor complex) : Tensor complex :=
  mkTensor (shape t) (cconj <$> data t).

Definition torch_abs (t : Tensor complex) : Tensor real :=
  mkTensor (shape t) (cabs <$> data t).

(** *** Operations on the two trailing axes *)

(** [torch.trace(t)]: [t] must be a matrix. *)
Definition torch_trace (t : Tensor complex) : Outcome complex :=
  match shape t with
  | [r; c] => Ok (csum (mat_diag r c (data t)))
  | _ => Raise RuntimeError
  end.

(** [torch.diagonal(t, offset=0, dim1, dim2)].  The device only takes the
    diagonal over the two trailing axes of a tensor it has just reshaped
    to rank 2 or 3; other axis pairs are not part of the embedding. *)
Definition torch_diagonal (t : Tensor complex) (dim1 dim2 : nat) : Outcome (Tensor complex) :=
  let k := length (shape t) - 2 in
  match drop k (shape t) with
  | [r; c] =>
      if (dim1 =? k) && (dim2 =? S k) then
        Ok (mkTensor (take k (shape t) ++ [min r c])
                     (mjoin (mat_diag r c <$> chunks (numel (take k (shape t))) (r * c) (data t))))
      else Raise RuntimeError
  | _ => Raise IndexError
  end.

(** [t.transpose(1, 2)] of a rank-3 tensor, the only use the device makes
    of [transpose]; other ranks and axis pairs are not part of the
    embedding. *)
Definition torch_transpose (t : Tensor complex) (dim0 dim1 : nat) : Outcome (Tensor complex) :=
  match shape t, dim0, dim1 with
  | [b; r; c], 1, 2 =>
      Ok (mkTensor [b; c; r] (mjoin (mat_transpose r c <$> chunks b (r * c) (data t))))
  | _, _, _ => Raise IndexError
  end.

(** [torch.bmm(a, b)]: batched product of [b x n x m] by [b x m x p]. *)
Definition torch_bmm (a b : Tensor complex) : Outcome (Tensor complex) :=
  match shape a, shape b with
  | [ba; n; m], [bb; m'; p] =>
      if (ba =? bb) && (m =? m') then
        Ok (mkTensor [ba; n; p]
                     (mjoin (zip_with (mat_mul n m p)
                                      (chunks ba (n * m) (data a))
                                      (chunks bb (m' * p) (data b)))))
      else Raise RuntimeError
  | _, _ => Raise RuntimeError
  end.

(** ** The store of tensor storages *)

(** A tensor object: the storage it reads and its shape.  Two references
    with the same storage alias each other. *)
Record TensorRef : Type := mkRef { storage : nat; ref_shape : list nat }.

Abbreviation Store := (list (list complex)).

Definition load (st : Store) (a : nat) : list complex := default [] (st !! a).

Definition value_of (st : Store) (r : TensorRef) : Tensor complex :=
  mkTensor (ref_shape r) (load st (storage r)).

Definition deref (r : TensorRef) : Exec Store (Tensor complex) :=
  fun st => (Ok (value_of st r), st).

(** A new tensor gets a storage of its own. *)
Definition alloc (t : Tensor complex) : Exec Store TensorRef :=
  fun st => (Ok (mkRef (length st) (shape t)), st ++ [data t]).

(** [torch.zeros(n, dtype=C_DTYPE)] *)
Definition torch_zeros (n : nat) : Exec Store TensorRef :=
  alloc (mkTensor [n] (replicate n c0)).

(** [t[index] = v] for an int [index] and a scalar [v]: writes the slice
    in place. *)
Definition setitem (r : TensorRef) (index : Z) (v : complex) : Exec Store unit :=
  fun st =>
    match ref_shape r with
    | [] => (Raise IndexError, st)
    | b :: rest =>
        if (- Z.of_nat b <=? index)%Z && (index <? Z.of_nat b)%Z then
          let i := Z.to_nat (if (index <? 0)%Z then index + Z.of_nat b else index)%Z in
          let k := numel rest in
          let d := load st (storage r) in
          (Ok tt, <[storage r := take (i * k) d ++ replicate k v ++ drop ((i + 1) * k) d]> st)
        else (Raise IndexError, st)
    end.

(** [torch.reshape] of a tensor object: the result shares the storage. *)
Definition reshape_ref (r : TensorRef) (spec : list Z) : Outcome TensorRef :=
  match infer_size spec (numel (ref_shape r)) with
  | Ok s => Ok (mkRef (storage r) s)
  | Raise e => Raise e
  end.

(** [t.clone()] *)
Definition tensor_clone (r : TensorRef) : Exec Store TensorRef :=
  t ← deref r; alloc t.

(** [t.repeat(sizes...)] as a new tensor object. *)
Definition tensor_repeat (r : TensorRef) (sizes : list nat) : Exec Store TensorRef :=
  t ← deref r; t' ← lift (torch_repeat t sizes); alloc t'.

End Torch.

Abbreviation Store := (list (list complex)).

(** The strides, in entries and one for each axis, of the tensors that a
    caller hands to the device.  They do not change what a tensor holds,
    only whether [view] accepts it; the one [view] of the device is taken
    of the argument of [clone_from_states]. *)
Class Strides : Type := strides_of : TensorRef → list nat.

(** ** NoiseModel *)

Section Device.
Context {SC : Scalar} {ST : Strides}.

Record NoiseModel : Type := mkNoiseModel { _kraus_dict : gmap string real }.

(** [NoiseModel.__init__]: the mapping is stored as it is. *)
Definition NoiseModel_init (kraus_dict : gmap string real) : NoiseModel :=
  mkNoiseModel kraus_dict.

(** [NoiseModel.kraus_dict] *)
Definition kraus_dict (m : NoiseModel) : gmap string real := _kraus_dict m.

(** The default argument of [NoiseDevice.__init__]. *)
Definition default_noise_model : NoiseModel :=
  NoiseModel_init (<["Bitflip" := r0]> (<["Phaseflip" := r0]> ∅)).

(** ** NoiseDevice *)

(** Modelled from the spec: the entries of [op_history] are appended by
    the operators of [torchquantum.functional], which are attached to the
    class by name; an entry records the name, the wires and the parameters
    of one applied operation. *)
Record OpEntry : Type := mkOpEntry {
  op_name : string;
  op_wires : list Z;
  op_params : list real
}.

Record NoiseDevice : Type := mkNoiseDevice {
  n_wires : nat;
  device_name : string;
  bsz : nat;
  device : string;
  _dims : nat;
  density : TensorRef;
  _densities : TensorRef;
  densities : TensorRef;
  record_op : bool;
  op_history : list OpEntry;
  _noise_model : NoiseModel
}.

(** [self.densities = t] *)
Definition with_densities (t : TensorRef) (d : NoiseDevice) : NoiseDevice :=
  mkNoiseDevice (n_wires d) (device_name d) (bsz d) (device d) (_dims d) (density d)
                (_densities d) t (record_op d) (op_history d) (_noise_model d).

(** [self.op_history = h] *)
Definition with_op_history (h : list OpEntry) (d : NoiseDevice) : NoiseDevice :=
  mkNoiseDevice (n_wires d) (device_name d) (bsz d) (device d) (_dims d) (density d)
                (_densities d) (densities d) (record_op d) h (_noise_model d).

(** [NoiseDevice.__init__] *)
Definition NoiseDevice_init (n_wires : nat) (device_name : string) (bsz : nat)
    (device : string) (record_op : bool) (noise_model : NoiseModel)
  : Exec Store NoiseDevice :=
  _density ← torch_zeros (2 ^ (2 * n_wires));
  setitem _density 0 c1;;
  _density ← lift (reshape_ref _density (py_shape (replicate (2 * n_wires) 2)));
  let _dims := 2 * n_wires in
  let density := _density in
  let repeat_times := bsz :: replicate (length (ref_shape density)) 1 in
  _densities ← tensor_repeat density repeat_times;
  mret (mkNoiseDevice n_wires device_name bsz device _dims density _densities _densities
                      record_op [] noise_model).

(** The state a method runs on: the store, the receiver and what has
    been printed. *)
Record World : Type := mkWorld {
  store : Store;
  self : NoiseDevice;
  stdout : list (Tensor complex)
}.

Definition on_store {A} (m : Exec Store A) : Exec World A :=
  fun w => let '(o, st) := m (store w) in (o, mkWorld st (self w) (stdout w)).

Definition attr {A} (f : NoiseDevice -> A) : Exec World A :=
  fun w => (Ok (f (self w)), w).

Definition set_self (f : NoiseDevice -> NoiseDevice) : Exec World unit :=
  fun w => (Ok tt, mkWorld (store w) (f (self w)) (stdout w)).

Definition print (t : Tensor complex) : Exec World unit :=
  fun w => (Ok tt, mkWorld (store w) (self w) (stdout w ++ [t])).

(** [NoiseDevice.reset_op_history] *)
Definition reset_op_history : Exec World unit :=
  set_self (with_op_history []).

(** [NoiseDevice.print_2d] *)
Definition print_2d (index : Z) : Exec World unit :=
  ds ← attr densities;
  t ← on_store (deref ds);
  e ← lift (torch_select t index);
  n ← attr n_wires;
  _matrix ← lift (torch_reshape e (py_shape (replicate 2 (2 ^ n))));
  print _matrix.

(** [NoiseDevice.get_2d_matrix] *)
Definition get_2d_matrix (index : Z) : Exec World (Tensor complex) :=
  ds ← attr densities;
  t ← on_store (deref ds);
  e ← lift (torch_select t index);
  n ← attr n_wires;
  _matrix ← lift (torch_reshape e (py_shape (replicate 2 (2 ^ n))));
  mret _matrix.

(** [NoiseDevice.get_densities_2d] *)
Definition get_densities_2d : Exec World (Tensor complex) :=
  ds ← attr densities;
  t ← on_store (deref ds);
  bsz ← lift (shape0 t);
  n ← attr n_wires;
  lift (torch_reshape t (py_shape [bsz; 2 ^ n; 2 ^ n])).

(** [NoiseDevice.get_density_2d] *)
Definition get_density_2d : Exec World (Tensor complex) :=
  d ← attr density;
  t ← on_store (deref d);
  n ← attr n_wires;
  lift (torch_reshape t (py_shape [2 ^ n; 2 ^ n])).

(** [NoiseDevice.calc_trace] *)
Definition calc_trace (index : Z) : Exec World complex :=
  ds ← attr densities;
  t ← on_store (deref ds);
  e ← lift (torch_select t index);
  n ← attr n_wires;
  _matrix ← lift (torch_reshape e (py_shape (replicate 2 (2 ^ n))));
  lift (torch_trace _matrix).

(** [NoiseDevice.get_probs_1d] *)
Definition get_probs_1d : Exec World (Tensor real) :=
  ds ← attr densities;
  t ← on_store (deref ds);
  bsz ← lift (shape0 t);
  n ← attr n_wires;
  densities2d ← lift (torch_reshape t (py_shape [bsz; 2 ^ n; 2 ^ n]));
  dg ← lift (torch_diagonal densities2d 1 2);
  mret (torch_abs dg).

(** [NoiseDevice.get_prob_1d] *)
Definition get_prob_1d : Exec World (Tensor real) :=
  d ← attr density;
  t ← on_store (deref d);
  n ← attr n_wires;
  density2d ← lift (torch_reshape t (py_shape [2 ^ n; 2 ^ n]));
  dg ← lift (torch_diagonal density2d 0 1);
  mret (torch_abs dg).

(** [NoiseDevice.clone_densities] *)
Definition clone_densities (existing_densities : TensorRef) : Exec World unit :=
  c ← on_store (tensor_clone existing_densities);
  set_self (with_densities c).

(** [NoiseDevice.clone_from_states] *)
Definition clone_from_states (existing_states : TensorRef) : Exec World unit :=
  ds ← attr densities;
  py_assert (2 * (Z.of_nat (length (ref_shape existing_states)) - 1)
             =? Z.of_nat (length (ref_shape ds)) - 1)%Z;;
  states ← on_store (deref existing_states);
  bsz ← lift (shape0 states);
  n ← attr n_wires;
  let state_dim := 2 ^ n in
  states_reshaped ← lift (torch_view states (strides_of existing_states)
                            ((-1)%Z :: py_shape [state_dim; 1]));
  states_conj_transpose ← lift (torch_transpose (torch_conj states_reshaped) 1 2);
  prod ← lift (torch_bmm states_reshaped states_conj_transpose);
  p ← on_store (alloc prod);
  set_self (with_densities p);;
  ds ← attr densities;
  r ← lift (reshape_ref ds (py_shape (bsz :: replicate (2 * n) 2)));
  set_self (with_densities r).

(** [NoiseDevice.noise_model] *)
Definition noise_model : Exec World NoiseModel := attr _noise_model.

End Device.

(** ** Notions used in the statements *)

(** The axes of a contiguous tensor with their strides, as the stride
    check of [view] walks them, from the last axis on: [stride] is the stride of the last axis, [sizes_rev] the sizes
    from the last axis on. *)
Fixpoint packed_axes (stride : nat) (sizes_rev : list nat) : list (nat * nat) :=
  match sizes_rev with
  | [] => []
  | size :: rest => (size, stride) :: packed_axes (stride * size) rest
  end.

Section Notions.
Context {SC : Scalar} {ST : Strides}.

(** The entries of the pure ground state on [m] entries: a one at index 0,
    zeros elsewhere. *)
Definition ground (m : nat) : list complex := c1 :: replicate (m - 1) c0.

(** The storage of [r] exists and holds as many entries as the shape of
    [r] asks for. *)
Definition backed (st : Store) (r : TensorRef) : Prop :=
  storage r < length st ∧ length (load st (storage r)) = numel (ref_shape r).

(** Row [i] of a batch of rows of [m] entries each. *)
Definition row {A} (m i : nat) (d : list A) : list A := take m (drop (i * m) d).

(** Entry [(j, k)] of a matrix with [m] columns. *)
Definition entry (m : nat) (d : list complex) (j k : nat) : complex :=
  nth (j * m + k) d c0.

(** The outer product of the column [psi] with its conjugated row, as a
    square matrix stored row by row. *)
Definition outer (psi : list complex) : list complex :=
  mjoin ((λ j, (λ k, cmul (nth j psi c0) (cconj (nth k psi c0))) <$> seq 0 (length psi))
           <$> seq 0 (length psi)).

(** The entries that [clone_from_states] stores for [b] states of [m]
    amplitudes held in [d]: the batched product of the columns with the
    transposed conjugates. *)
Definition lifted (m b : nat) (d : list complex) : list complex :=
  mjoin (zip_with (mat_mul m 1 m)
           (chunks b (m * 1) d)
           (chunks b (1 * m) (mjoin (mat_transpose m 1 <$> chunks b (m * 1) (cconj <$> d))))).

(** The batch buffer of [w] holds, in the expanded layout of [n] wires,
    the outer products of the [b] states whose amplitudes are in [d]. *)
Definition holds_lift (w : World) (n b : nat) (d : list complex) : Prop :=
  n_wires (self w) = n
  ∧ length d = b * 2 ^ n
  ∧ value_of (store w) (densities (self w))
    = mkTensor (b :: replicate (2 * n) 2) (mjoin (outer <$> chunks b (2 ^ n) d)).

(** The tensor [src] lies in memory as a contiguous tensor does. *)
Definition contiguous (src : TensorRef) : Prop :=
  strides_of src = contiguous_strides (ref_shape src).

(** The strides of [src] allow the view [(-1, m, 1)] that
    [clone_from_states] takes of its argument. *)
Definition viewable (src : TensorRef) (m : nat) : Prop :=
  view_ok (ref_shape src) (strides_of src) [numel (ref_shape src) / m; m; 1] = true.

(** The squared norm of a state vector is one. *)
Definition unit_norm (psi : list complex) : Prop := rsum (cnormsq <$> psi) = r1.

(** The expanded per-qubit layout of [n] wires: a batch axis, then [2 n]
    axes of size 2. *)
Definition layout_ok (n : nat) (s : list nat) : bool :=
  match s with
  | [] => false
  | _ :: rest => bool_decide (rest = replicate (2 * n) 2)
  end.

(** A view that leaves the world as it found it. *)
Definition pure_view {A} (v : Exec World A) : Prop := ∀ w, snd (v w) = w.

(** Two worlds whose devices have the same number of wires and the same
    contents in the batch buffer and in the snapshot. *)
Definition same_buffers (w1 w2 : World) : Prop :=
  n_wires (self w1) = n_wires (self w2)
  ∧ value_of (store w1) (densities (self w1)) = value_of (store w2) (densities (self w2))
  ∧ value_of (store w1) (density (self w1)) = value_of (store w2) (density (self w2)).

(** The result of a view is a function of the buffers alone. *)
Definition reads_buffers_only {A} (v : Exec World A) : Prop :=
  ∀ w1 w2, same_buffers w1 w2 → fst (v w1) = fst (v w2).

(** [w'] differs from [w] at most in the batch buffer: every other
    attribute is the same and the storages that existed in [w] have their
    contents. *)
Definition same_but_densities (w w' : World) : Prop :=
  n_wires (self w') = n_wires (self w)
  ∧ bsz (self w') = bsz (self w)
  ∧ density (self w') = density (self w)
  ∧ _densities (self w') = _densities (self w)
  ∧ _noise_model (self w') = _noise_model (self w)
  ∧ op_history (self w') = op_history (self w)
  ∧ _dims (self w') = _dims (self w)
  ∧ record_op (self w') = record_op (self w)
  ∧ device_name (self w') = device_name (self w)
  ∧ device (self w') = device (self w)
  ∧ stdout w' = stdout w
  ∧ ∀ a, a < length (store w) → load (store w') a = load (store w) a.

(** A device built for [n] wires and batch size [b] whose batch buffer
    now has batch size [b']: the attribute [bsz] still says [b], the
    batched views follow the buffer, the snapshot views still show the
    ground state. *)
Definition adopted_batch (n b b' : nat) (w : World) : Prop :=
  bsz (self w) = b
  ∧ shape0 (value_of (store w) (densities (self w))) = Ok b'
  ∧ (∃ p, get_probs_1d w = (Ok p, w) ∧ shape p = [b'; 2 ^ n])
  ∧ (∃ m, get_densities_2d w = (Ok m, w) ∧ shape m = [b'; 2 ^ n; 2 ^ n])
  ∧ get_density_2d w = (Ok (mkTensor [2 ^ n; 2 ^ n] (ground (2 ^ (2 * n)))), w)
  ∧ get_prob_1d w = (Ok (mkTensor [2 ^ n] (r1 :: replicate (2 ^ n - 1) r0)), w).

(** In-place write of new contents into a storage, as a caller does when
    it mutates a tensor it holds. *)
Definition overwrite (a : nat) (d : list complex) (st : Store) : Store := <[a := d]> st.

End Notions.

(** ** Worlds to run the device on, over the integers *)

(** Every tensor of the caller is contiguous. *)
Definition contiguous_layout : Strides := λ r, contiguous_strides (ref_shape r).

(** The tensors of shape [[2, 2, 2]] have their two last axes swapped in
    memory (strides [(4, 1, 2)]), all others are contiguous. *)
Definition swapped_layout : Strides :=
  λ r, if bool_decide (ref_shape r = [2; 2; 2]) then [4; 1; 2]
       else contiguous_strides (ref_shape r).

Definition zc (re im : Z) : @complex Z_scalar := (re, im).

(** A device built with the default arguments but [n_wires] and [bsz],
    on an empty store. *)
Definition boot (n b : nat) : World :=
  let '(o, st) := NoiseDevice_init n "noisedevice" b "cpu" false default_noise_model [] in
  match o with
  | Ok d => mkWorld st d []
  | Raise _ =>
      mkWorld st (mkNoiseDevice n "noisedevice" b "cpu" 0 (mkRef 0 []) (mkRef 0 []) (mkRef 0 [])
                                false [] default_noise_model) []
  end.

(** The same world after a caller has made a tensor of its own. *)
Definition with_tensor (t : Tensor complex) (w : World) : World * TensorRef :=
  (mkWorld (store w ++ [data t]) (self w) (stdout w), mkRef (length (store w)) (shape t)).

(** Two basis states of two wires, flattened to shape [[2, 4]]. *)
Definition flat_states : Tensor complex :=
  mkTensor [2; 4] [zc 1 0; zc 0 0; zc 0 0; zc 0 0; zc 0 0; zc 1 0; zc 0 0; zc 0 0].

(** The same two states in the per-qubit layout [[2, 2, 2]]. *)
Definition layout_states : Tensor complex :=
  mkTensor [2; 2; 2] (data flat_states).

(** One state of four amplitudes, handed to a device with one wire. *)
Definition wide_state : Tensor complex :=
  mkTensor [1; 4] [zc 1 0; zc 0 0; zc 0 0; zc 0 0].

(** The excited basis state of one wire. *)
Definition excited_state : Tensor complex := mkTensor [1; 2] [zc 0 0; zc 1 0].

(** A vector of three entries, which is no batch of density matrices. *)
Definition vector3 : Tensor complex := mkTensor [3] [zc 1 0; zc 2 0; zc 3 0].

(** Three density matrices of one wire. *)
Definition three_densities : Tensor complex :=
  mkTensor [3; 2; 2]
    [zc 1 0; zc 0 0; zc 0 0; zc 0 0;
     zc 0 0; zc 0 0; zc 0 0; zc 1 0;
     zc 1 0; zc 0 0; zc 0 0; zc 0 0].

(** The two basis states of one wire, as a batch of shape [[2, 2]]. *)
Definition basis_states : Tensor complex :=
  mkTensor [2; 2] [zc 1 0; zc 0 0; zc 0 0; zc 1 0].

(** Three states of one wire. *)
Definition three_states : Tensor complex :=
  mkTensor [3; 2] [zc 1 0; zc 0 0; zc 0 0; zc 1 0; zc 1 0; zc 0 0].


(** ** More notions for the statements *)

Section MoreNotions.
Context {SC : Scalar}.

(** [index] converted to a position along an axis of size [b], as Python
    does for a negative index. *)
Definition py_index (b : nat) (index : Z) : nat :=
  Z.to_nat (if (index <? 0)%Z then index + Z.of_nat b else index)%Z.

End MoreNotions.

Section Sessions.
Context {SC : Scalar} {ST : Strides}.

(** The methods of the device, with their arguments. *)
Inductive Call : Type :=
| CallResetOpHistory
| CallPrint2d (index : Z)
| CallGet2dMatrix (index : Z)
| CallGetDensities2d
| CallGetDensity2d
| CallCalcTrace (index : Z)
| CallGetProbs1d
| CallGetProb1d
| CallCloneDensities (existing_densities : TensorRef)
| CallCloneFromStates (existing_states : TensorRef)
| CallNoiseModel.

(** The world a call leaves behind, whether it returns or raises. *)
Definition run_call (w : World) (c : Call) : World :=
  match c with
  | CallResetOpHistory => snd (reset_op_history w)
  | CallPrint2d i => snd (print_2d i w)
  | CallGet2dMatrix i => snd (get_2d_matrix i w)
  | CallGetDensities2d => snd (get_densities_2d w)
  | CallGetDensity2d => snd (get_density_2d w)
  | CallCalcTrace i => snd (calc_trace i w)
  | CallGetProbs1d => snd (get_probs_1d w)
  | CallGetProb1d => snd (get_prob_1d w)
  | CallCloneDensities t => snd (clone_densities t w)
  | CallCloneFromStates t => snd (clone_from_states t w)
  | CallNoiseModel => snd (noise_model w)
  end.

(** A session: calls made one after the other, exceptions caught. *)
Definition run_calls (cs : list Call) (w : World) : World := foldl run_call w cs.

(** The tensor a call is handed, if any. *)
Definition call_argument (c : Call) : option TensorRef :=
  match c with
  | CallCloneDensities t | CallCloneFromStates t => Some t
  | _ => None
  end.

(** What a session may change: the batch buffer, the ledger (emptied at
    most), the output (extended at most) and the store (extended at
    most). *)
Definition evolves (w w' : World) : Prop :=
  n_wires (self w') = n_wires (self w)
  ∧ bsz (self w') = bsz (self w)
  ∧ density (self w') = density (self w)
  ∧ _densities (self w') = _densities (self w)
  ∧ _noise_model (self w') = _noise_model (self w)
  ∧ _dims (self w') = _dims (self w)
  ∧ record_op (self w') = record_op (self w)
  ∧ device_name (self w') = device_name (self w)
  ∧ device (self w') = device (self w)
  ∧ (op_history (self w') = op_history (self w) ∨ op_history (self w') = [])
  ∧ (∃ printed, stdout w' = stdout w ++ printed)
  ∧ length (store w) ≤ length (store w')
  ∧ ∀ a, a < length (store w) → load (store w') a = load (store w) a.

End Sessions.

Section BasisStates.
Context {SC : Scalar}.

(** The amplitudes of the basis state [k] among [m]: a one at index [k]. *)
Definition basis_state (m k : nat) : list complex := <[k := c1]> (replicate m c0).

End BasisStates.

(** An empty batch of states of four amplitudes. *)
Definition empty_states : Tensor complex := mkTensor [0; 4] [].

(** One state of eight amplitudes in shape [[1, 2, 4]], handed to a device
    with two wires. *)
Definition oversized_state : Tensor complex :=
  mkTensor [1; 2; 4] [zc 1 0; zc 0 0; zc 0 0; zc 0 0; zc 0 0; zc 0 0; zc 0 0; zc 0 0].

(** One state of two wires in the per-qubit layout. *)
Definition single_state : Tensor complex :=
  mkTensor [1; 2; 2] [zc 1 0; zc 0 0; zc 0 0; zc 0 0].

(** A short session around a clone from [src]. *)
Definition sample_session (src : TensorRef) : list Call :=
  [CallGetProbs1d; CallCloneDensities src; CallCalcTrace 0; CallResetOpHistory].

(** * Properties *)

(** ** Shapes and size inference *)

Lemma numel_replicate (k n : nat) : numel (replicate n k) = k ^ n.
Proof. induction n as [|n IH]; simpl; [done|]. by rewrite IH. Qed.

Lemma pow2_pos (n : nat) : 0 < 2 ^ n.
Proof. induction n; simpl; lia. Qed.

Lemma pow2_double (n : nat) : 2 ^ (2 * n) = 2 ^ n * 2 ^ n.
Proof. replace (2 * n) with (n + n) by lia. apply Nat.pow_add_r. Qed.

Lemma py_shape_cons (x : nat) (l : list nat) : py_shape (x :: l) = Z.of_nat x :: py_shape l.
Proof. done. Qed.

Lemma scan_sizes_py_shape (l : list nat) : scan_sizes (py_shape l) = Ok (false, numel l).
Proof.
  induction l as [|x l IH]; [done|].
  rewrite py_shape_cons. simpl scan_sizes. rewrite IH.
  destruct (Z.eqb_spec (Z.of_nat x) (-1)) as [Hx|_]; [lia|].
  destruct (Z.leb_spec 0 (Z.of_nat x)) as [_|Hx]; [|lia].
  by rewrite Nat2Z.id.
Qed.

Lemma to_nat_py_shape (l : list nat) : Z.to_nat <$> py_shape l = l.
Proof.
  unfold py_shape. rewrite <- list_fmap_compose.
  rewrite <- (list_fmap_id l) at 2. apply list_fmap_ext.
  intros i x _. simpl. apply Nat2Z.id.
Qed.

(** A shape without [-1] is accepted exactly when it has the same number
    of entries. *)
Lemma infer_size_py_shape (l : list nat) (n : nat) :
  infer_size (py_shape l) n = if n =? numel l then Ok l else Raise RuntimeError.
Proof.
  unfold infer_size. rewrite scan_sizes_py_shape. simpl.
  rewrite orb_false_r. by rewrite to_nat_py_shape.
Qed.

(** A leading [-1] is resolved by division, when the division is exact. *)
Lemma infer_size_leading (l : list nat) (n : nat) :
  infer_size ((-1)%Z :: py_shape l) n =
    if (0 <? numel l) && (n mod numel l =? 0) then Ok (n / numel l :: l)
    else Raise RuntimeError.
Proof.
  unfold infer_size. simpl scan_sizes. rewrite scan_sizes_py_shape. simpl.
  destruct (Nat.ltb_spec 0 (numel l)) as [Hpos|Hz]; simpl.
  - destruct (Nat.eqb_spec (n mod numel l) 0) as [Hm|Hm].
    + rewrite orb_true_r.
      destruct (Nat.eqb_spec (numel l) 0) as [?|_]; [lia|].
      f_equal. f_equal.
      rewrite <- (to_nat_py_shape l) at 2. unfold py_shape.
      rewrite <- !list_fmap_compose. apply list_fmap_ext. intros i x _. simpl.
      destruct (Z.eqb_spec (Z.of_nat x) (-1)); [lia|]. done.
    + rewrite orb_false_r.
      destruct (Nat.eqb_spec n (numel l)) as [->|_]; [|done].
      rewrite Nat.Div0.mod_same in Hm. done.
  - rewrite orb_false_r. assert (numel l = 0) as -> by lia.
    destruct (Nat.eqb_spec n 0); done.
Qed.

Lemma torch_reshape_py_shape {A} (t : Tensor A) (l : list nat) :
  numel (shape t) = numel l →
  torch_reshape t (py_shape l) = Ok (mkTensor l (data t)).
Proof.
  intros H. unfold torch_reshape. rewrite infer_size_py_shape, H, Nat.eqb_refl. done.
Qed.

(** ** Chunks, rows and tiling *)

Lemma fmap_fixed {A} (f : A → A) (l : list A) : Forall (λ x, f x = x) l → f <$> l = l.
Proof. induction 1 as [|x l Hx _ IH]; [done|]. csimpl. by rewrite Hx, IH. Qed.

Lemma fmap_constant {A B} (f : A → B) (c : B) (l : list A) :
  Forall (λ x, f x = c) l → f <$> l = replicate (length l) c.
Proof. induction 1 as [|x l Hx _ IH]; [done|]. csimpl. by rewrite Hx, IH. Qed.

Section Lists.
Context {A : Type}.
Implicit Types (l d : list A) (ls : list (list A)).

Lemma chunks_S (count size : nat) l :
  chunks (S count) size l = take size l :: chunks count size (drop size l).
Proof. done. Qed.

Lemma length_chunks (count size : nat) l : length (chunks count size l) = count.
Proof. unfold chunks. by rewrite length_reshape, length_replicate. Qed.

Lemma lookup_chunks (count size i : nat) l :
  i < count → chunks count size l !! i = Some (row size i l).
Proof.
  revert i l. induction count as [|count IH]; intros i l Hi; [lia|].
  rewrite chunks_S. destruct i as [|i]; simpl.
  - unfold row. by rewrite drop_0.
  - rewrite IH by lia. unfold row. rewrite drop_drop. repeat f_equal; lia.
Qed.

Lemma join_chunks (count size : nat) l :
  length l = count * size → mjoin (chunks count size l) = l.
Proof. intros H. apply join_reshape. by rewrite sum_list_replicate. Qed.

Lemma chunks_join (size : nat) ls :
  Forall (λ x, length x = size) ls → chunks (length ls) size (mjoin ls) = ls.
Proof.
  induction 1 as [|x ls Hx _ IH]; [done|].
  simpl length. rewrite chunks_S. simpl mjoin.
  rewrite take_app_length', drop_app_length' by done. by rewrite IH.
Qed.

Lemma chunks_lengths (count size : nat) l :
  count * size ≤ length l → Forall (λ x, length x = size) (chunks count size l).
Proof.
  revert l. induction count as [|count IH]; intros l Hl; [constructor|].
  rewrite chunks_S. constructor.
  - rewrite length_take. lia.
  - apply IH. rewrite length_drop. lia.
Qed.

Lemma row_join (size i : nat) ls x :
  Forall (λ y, length y = size) ls → ls !! i = Some x → row size i (mjoin ls) = x.
Proof.
  intros Hall Hx.
  assert (i < length ls) as Hi by (apply lookup_lt_is_Some; eauto).
  pose proof (lookup_chunks (length ls) size i (mjoin ls) Hi) as Hc.
  rewrite chunks_join in Hc by done. congruence.
Qed.

Lemma row_join_replicate (size b i : nat) d :
  length d = size → i < b → row size i (mjoin (replicate b d)) = d.
Proof.
  intros Hd Hi. apply row_join.
  - by apply Forall_replicate.
  - by apply lookup_replicate_2.
Qed.

Lemma chunks_join_replicate (size b : nat) d :
  length d = size → chunks b size (mjoin (replicate b d)) = replicate b d.
Proof.
  intros Hd. pose proof (chunks_join size (replicate b d)) as H.
  rewrite length_replicate in H. apply H. by apply Forall_replicate.
Qed.

Lemma length_row (size b i : nat) l :
  length l = b * size → i < b → length (row size i l) = size.
Proof.
  intros Hl Hi. unfold row. rewrite length_take, length_drop. nia.
Qed.

Lemma join_singleton l : mjoin (replicate 1 l) = l.
Proof. simpl. apply app_nil_r. Qed.

Lemma tile_cons (s r : nat) (shp reps : list nat) d :
  tile (s :: shp) (r :: reps) d
  = mjoin (replicate r (mjoin (tile shp reps <$> chunks s (numel shp) d))).
Proof. done. Qed.

(** Repeating every axis once changes nothing. *)
Lemma tile_ones (shp : list nat) d :
  length d = numel shp → tile shp (replicate (length shp) 1) d = d.
Proof.
  revert d. induction shp as [|s shp IH]; intros d Hd; [done|].
  simpl in Hd. simpl replicate. rewrite tile_cons, join_singleton, fmap_fixed.
  - by apply join_chunks.
  - eapply Forall_impl; [apply chunks_lengths; lia|].
    intros x Hx. by apply IH.
Qed.

(** Repeating along a new leading axis lays copies end to end. *)
Lemma tile_leading (shp : list nat) (b : nat) d :
  length d = numel shp →
  tile (1 :: shp) (b :: replicate (length shp) 1) d = mjoin (replicate b d).
Proof.
  intros Hd. rewrite tile_cons. do 2 f_equal.
  rewrite chunks_S. simpl. rewrite app_nil_r, take_ge by lia. by apply tile_ones.
Qed.

Lemma length_join_replicate (b : nat) d : length (mjoin (replicate b d)) = b * length d.
Proof. induction b as [|b IH]; simpl; [done|]. rewrite length_app, IH. done. Qed.

Lemma nth_map_seq (dflt : A) l :
  (λ i, nth i l dflt) <$> seq 0 (length l) = l.
Proof.
  apply list_eq. intros i. rewrite list_lookup_fmap.
  destruct (decide (i < length l)) as [Hi|Hi].
  - rewrite lookup_seq_lt by done. simpl.
    destruct (lookup_lt_is_Some_2 l i Hi) as [x Hx].
    rewrite Hx. f_equal. by apply nth_lookup_Some.
  - rewrite (lookup_ge_None_2 l) by lia.
    rewrite (lookup_ge_None_2 (seq 0 (length l))) by (rewrite length_seq; lia). done.
Qed.

End Lists.

(** ** Complex arithmetic *)

Section Arithmetic.
Context {SC : Scalar}.
Add Ring real_ring_inst : real_ring.

Lemma cadd_0_l (x : complex) : cadd c0 x = x.
Proof. destruct x as [a b]. unfold cadd, c0. simpl. f_equal; ring. Qed.

Lemma cadd_0_r (x : complex) : cadd x c0 = x.
Proof. destruct x as [a b]. unfold cadd, c0. simpl. f_equal; ring. Qed.

Lemma cmul_1_1 : cmul c1 (cconj c1) = c1.
Proof. unfold cmul, cconj, c1. simpl. f_equal; ring. Qed.

Lemma cmul_0_l (x : complex) : cmul c0 x = c0.
Proof. destruct x as [a b]. unfold cmul, c0. simpl. f_equal; ring. Qed.

Lemma cconj_0 : cconj c0 = c0.
Proof. unfold cconj, c0. simpl. f_equal; ring. Qed.

(** [z * conj z] is the squared modulus, a real. *)
Lemma cmul_conj (z : complex) : cmul z (cconj z) = (cnormsq z, r0).
Proof. destruct z as [a b]. unfold cmul, cconj, cnormsq. simpl. f_equal; ring. Qed.

Lemma cabs_0 : cabs c0 = r0.
Proof.
  unfold cabs, cnormsq, c0. simpl.
  replace (radd (rmul r0 r0) (rmul r0 r0)) with r0 by ring. apply rsqrt_0.
Qed.

Lemma cabs_1 : cabs c1 = r1.
Proof.
  unfold cabs, cnormsq, c1. simpl.
  replace (radd (rmul r1 r1) (rmul r0 r0)) with r1 by ring. apply rsqrt_1.
Qed.

Lemma foldl_cadd_zeros (x : complex) (k : nat) : foldl cadd x (replicate k c0) = x.
Proof. induction k as [|k IH]; simpl; [done|]. by rewrite cadd_0_r. Qed.

Lemma csum_singleton (x : complex) : csum [x] = x.
Proof. unfold csum. simpl. apply cadd_0_l. Qed.

(** A left-to-right sum of pairs adds the components separately. *)
Lemma foldl_cadd_pair (l : list complex) (a b : real) :
  foldl cadd (a, b) l = (foldl radd a (fst <$> l), foldl radd b (snd <$> l)).
Proof.
  revert a b. induction l as [|[x y] l IH]; intros a b; [done|].
  simpl. unfold cadd at 2. simpl. apply IH.
Qed.

Lemma foldl_radd_zeros (a : real) (k : nat) : foldl radd a (replicate k r0) = a.
Proof.
  induction k as [|k IH]; simpl; [done|].
  replace (radd a r0) with a by ring. done.
Qed.

(** ** The ground state *)

Lemma length_ground (m : nat) : 0 < m → length (ground m) = m.
Proof. intros Hm. unfold ground. simpl. rewrite length_replicate. lia. Qed.

Lemma nth_ground (m i : nat) : nth i (ground m) c0 = if i =? 0 then c1 else c0.
Proof.
  destruct i as [|i]; [done|]. unfold ground. simpl.
  rewrite nth_lookup.
  destruct (replicate (m - 1) c0 !! i) as [x|] eqn:Hx; [|done].
  simpl. by apply lookup_replicate in Hx as [-> _].
Qed.

Lemma csum_ground (m : nat) : csum (ground m) = c1.
Proof. unfold csum, ground. simpl. by rewrite cadd_0_l, foldl_cadd_zeros. Qed.

(** The diagonal of the ground-state matrix is again a ground state. *)
Lemma mat_diag_ground (m N : nat) : 0 < m → mat_diag m m (ground N) = ground m.
Proof.
  intros Hm. unfold mat_diag. rewrite Nat.min_id.
  destruct m as [|m]; [lia|]. simpl seq. rewrite fmap_cons.
  change (ground (S m)) with (c1 :: replicate (S m - 1) c0). f_equal.
  rewrite (fmap_constant _ c0).
  - rewrite length_seq. f_equal. lia.
  - apply Forall_seq. intros k Hk. cbv beta. rewrite nth_ground.
    destruct (Nat.eqb_spec (k * S m + k) 0); [lia|done].
Qed.

Lemma cabs_ground (m : nat) : cabs <$> ground m = r1 :: replicate (m - 1) r0.
Proof. unfold ground. csimpl. by rewrite cabs_1, fmap_replicate, cabs_0. Qed.

End Arithmetic.

(** ** The store and the constructor *)

Section Runs.
Context {SC : Scalar}.

Lemma load_new (st : Store) (d : list complex) : load (st ++ [d]) (length st) = d.
Proof. unfold load. by rewrite list_lookup_middle. Qed.

Lemma load_old (st : Store) (d : list complex) (a : nat) :
  a < length st → load (st ++ [d]) a = load st a.
Proof. intros H. unfold load. by rewrite lookup_app_l. Qed.

Lemma insert_new (st : Store) (d d' : list complex) :
  <[length st := d']> (st ++ [d]) = st ++ [d'].
Proof. rewrite insert_app_r_alt by lia. by rewrite Nat.sub_diag. Qed.

Lemma zip_mul_ones (s : list nat) : zip_with Nat.mul s (replicate (length s) 1) = s.
Proof. induction s as [|x s IH]; [done|]. simpl. rewrite IH. f_equal. lia. Qed.

Lemma setitem_zeros (st : Store) (N : nat) :
  0 < N →
  setitem (mkRef (length st) [N]) 0 c1 (st ++ [replicate N c0]) = (Ok tt, st ++ [ground N]).
Proof.
  intros HN. unfold setitem. cbn [ref_shape storage].
  assert ((- Z.of_nat N <=? 0)%Z = true) as -> by (apply Z.leb_le; lia).
  assert ((0 <? Z.of_nat N)%Z = true) as -> by (apply Z.ltb_lt; lia).
  simpl. rewrite load_new, insert_new. unfold ground.
  rewrite drop_replicate. done.
Qed.

Lemma torch_repeat_leading {A} (s : list nat) (d : list A) (b : nat) :
  length d = numel s →
  torch_repeat (mkTensor s d) (b :: replicate (length s) 1)
  = Ok (mkTensor (b :: s) (mjoin (replicate b d))).
Proof.
  intros Hd. unfold torch_repeat. cbn [shape data]. simpl length.
  rewrite length_replicate.
  destruct (Nat.ltb_spec (S (length s)) (length s)) as [?|_]; [lia|].
  replace (S (length s) - length s) with 1 by lia.
  cbn [replicate app]. rewrite tile_leading by done.
  cbn [zip_with]. rewrite zip_mul_ones. by rewrite Nat.mul_1_l.
Qed.

Lemma NoiseDevice_init_run n name b dev rec nm (st : Store) :
  NoiseDevice_init n name b dev rec nm st
  = (Ok (mkNoiseDevice n name b dev (2 * n)
           (mkRef (length st) (replicate (2 * n) 2))
           (mkRef (S (length st)) (b :: replicate (2 * n) 2))
           (mkRef (S (length st)) (b :: replicate (2 * n) 2))
           rec [] nm),
     st ++ [ground (2 ^ (2 * n)); mjoin (replicate b (ground (2 ^ (2 * n))))]).
Proof.
  unfold NoiseDevice_init, mbind, Exec_bind, exec_bind, torch_zeros, alloc, lift.
  cbn [shape data].
  rewrite setitem_zeros by apply pow2_pos.
  unfold reshape_ref. cbn [ref_shape storage]. rewrite infer_size_py_shape.
  rewrite numel_replicate. simpl numel at 1. rewrite Nat.mul_1_r, Nat.eqb_refl.
  unfold tensor_repeat, mbind, Exec_bind, exec_bind, deref, lift, value_of, alloc.
  cbn [ref_shape storage]. rewrite load_new.
  rewrite torch_repeat_leading.
  2:{ rewrite numel_replicate. apply length_ground, pow2_pos. }
  cbn [shape data]. rewrite length_app. simpl length. rewrite Nat.add_1_r.
  rewrite <- app_assoc. done.
Qed.
(** ** What the views compute *)

Ltac run_view :=
  intros;
  unfold mbind, mret, Exec_bind, Exec_ret, exec_bind, exec_ret, attr, on_store, deref, lift,
    print;
  match goal with w : World |- _ => destruct w as [st d out] end;
  cbn [store self stdout fst snd];
  repeat match goal with
         | |- context [match ?o with Ok _ => _ | Raise _ => _ end] =>
             match type of o with Outcome _ => destruct o end
         end;
  cbn [store self stdout fst snd]; try done.

Lemma get_2d_matrix_run (i : Z) (w : World) :
  get_2d_matrix i w
  = (match torch_select (value_of (store w) (densities (self w))) i with
     | Ok e => torch_reshape e (py_shape (replicate 2 (2 ^ n_wires (self w))))
     | Raise x => Raise x
     end, w).
Proof. unfold get_2d_matrix. run_view. Qed.

Lemma calc_trace_run (i : Z) (w : World) :
  calc_trace i w
  = (match torch_select (value_of (store w) (densities (self w))) i with
     | Ok e =>
         match torch_reshape e (py_shape (replicate 2 (2 ^ n_wires (self w)))) with
         | Ok m => torch_trace m
         | Raise x => Raise x
         end
     | Raise x => Raise x
     end, w).
Proof. unfold calc_trace. run_view. Qed.

Lemma print_2d_run (i : Z) (w : World) :
  print_2d i w
  = match fst (get_2d_matrix i w) with
    | Ok m => (Ok tt, mkWorld (store w) (self w) (stdout w ++ [m]))
    | Raise x => (Raise x, w)
    end.
Proof. rewrite get_2d_matrix_run. unfold print_2d. run_view. Qed.

Lemma get_densities_2d_run (w : World) :
  get_densities_2d w
  = (let t := value_of (store w) (densities (self w)) in
     match shape0 t with
     | Ok b => torch_reshape t (py_shape [b; 2 ^ n_wires (self w); 2 ^ n_wires (self w)])
     | Raise x => Raise x
     end, w).
Proof. unfold get_densities_2d. run_view. Qed.

Lemma get_density_2d_run (w : World) :
  get_density_2d w
  = (torch_reshape (value_of (store w) (density (self w)))
       (py_shape [2 ^ n_wires (self w); 2 ^ n_wires (self w)]), w).
Proof. unfold get_density_2d. run_view. Qed.

Lemma get_probs_1d_run (w : World) :
  get_probs_1d w
  = (let t := value_of (store w) (densities (self w)) in
     match shape0 t with
     | Ok b =>
         match torch_reshape t (py_shape [b; 2 ^ n_wires (self w); 2 ^ n_wires (self w)]) with
         | Ok t2 =>
             match torch_diagonal t2 1 2 with
             | Ok dg => Ok (torch_abs dg)
             | Raise x => Raise x
             end
         | Raise x => Raise x
         end
     | Raise x => Raise x
     end, w).
Proof. unfold get_probs_1d. run_view. Qed.

Lemma get_prob_1d_run (w : World) :
  get_prob_1d w
  = (match torch_reshape (value_of (store w) (density (self w)))
             (py_shape [2 ^ n_wires (self w); 2 ^ n_wires (self w)]) with
     | Ok t2 =>
         match torch_diagonal t2 0 1 with
         | Ok dg => Ok (torch_abs dg)
         | Raise x => Raise x
         end
     | Raise x => Raise x
     end, w).
Proof. unfold get_prob_1d. run_view. Qed.

End Runs.

(** ** Indexing, diagonals and traces *)

Section Views.
Context {SC : Scalar}.

Lemma torch_select_nonneg {A} (b : nat) (rest : list nat) (d : list A) (i : Z) :
  (0 ≤ i < Z.of_nat b)%Z →
  torch_select (mkTensor (b :: rest) d) i
  = Ok (mkTensor rest (row (numel rest) (Z.to_nat i) d)).
Proof.
  intros Hi. unfold torch_select. cbn [shape data].
  assert ((- Z.of_nat b <=? i)%Z = true) as -> by (apply Z.leb_le; lia).
  assert ((i <? Z.of_nat b)%Z = true) as -> by (apply Z.ltb_lt; lia).
  assert ((i <? 0)%Z = false) as -> by (apply Z.ltb_ge; lia).
  done.
Qed.

Lemma torch_select_negative {A} (b : nat) (rest : list nat) (d : list A) (i : Z) :
  (- Z.of_nat b ≤ i < 0)%Z →
  torch_select (mkTensor (b :: rest) d) i
  = Ok (mkTensor rest (row (numel rest) (Z.to_nat (i + Z.of_nat b)) d)).
Proof.
  intros Hi. unfold torch_select. cbn [shape data].
  assert ((- Z.of_nat b <=? i)%Z = true) as -> by (apply Z.leb_le; lia).
  assert ((i <? Z.of_nat b)%Z = true) as -> by (apply Z.ltb_lt; lia).
  assert ((i <? 0)%Z = true) as -> by (apply Z.ltb_lt; lia).
  done.
Qed.

Lemma torch_select_out_of_range {A} (b : nat) (rest : list nat) (d : list A) (i : Z) :
  (i < - Z.of_nat b ∨ Z.of_nat b ≤ i)%Z →
  torch_select (mkTensor (b :: rest) d) i = Raise IndexError.
Proof.
  intros Hi. unfold torch_select. cbn [shape data].
  destruct (Z.leb_spec (- Z.of_nat b) i); destruct (Z.ltb_spec i (Z.of_nat b)); simpl;
    first [done | lia].
Qed.

Lemma numel_layout (b n : nat) : numel (b :: replicate (2 * n) 2) = b * (2 ^ n * 2 ^ n).
Proof. simpl numel. fold (numel (replicate (n + (n + 0)) 2)). rewrite numel_replicate.
  replace (n + (n + 0)) with (2 * n) by lia. by rewrite pow2_double. Qed.

Lemma numel_batch_square (b m : nat) : numel [b; m; m] = b * (m * m).
Proof. simpl. lia. Qed.

Lemma fmap_join_replicate {A B} (f : A → B) (b : nat) (d : list A) :
  f <$> mjoin (replicate b d) = mjoin (replicate b (f <$> d)).
Proof. induction b as [|b IH]; [done|]. simpl. by rewrite fmap_app, IH. Qed.

(** The trace of a ground-state matrix. *)
Lemma torch_trace_ground (m N : nat) :
  0 < m → torch_trace (mkTensor [m; m] (ground N)) = Ok c1.
Proof.
  intros Hm. unfold torch_trace. cbn [shape data].
  by rewrite mat_diag_ground, csum_ground.
Qed.

(** Every batch element of a replicated ground state is the ground state. *)
Lemma select_replicated (b n : nat) (g : list complex) (i : Z) :
  length g = 2 ^ n * 2 ^ n → (0 ≤ i < Z.of_nat b)%Z →
  torch_select (mkTensor (b :: replicate (2 * n) 2) (mjoin (replicate b g))) i
  = Ok (mkTensor (replicate (2 * n) 2) g).
Proof.
  intros Hg Hi. rewrite torch_select_nonneg by done. do 2 f_equal.
  apply row_join_replicate; [|lia].
  by rewrite numel_replicate, pow2_double.
Qed.

Lemma reshape_to_square {A} (n : nat) (d : list A) :
  torch_reshape (mkTensor (replicate (2 * n) 2) d) (py_shape (replicate 2 (2 ^ n)))
  = Ok (mkTensor [2 ^ n; 2 ^ n] d).
Proof.
  apply (torch_reshape_py_shape (mkTensor _ d)). cbn [shape].
  rewrite numel_replicate, pow2_double. simpl. lia.
Qed.

Lemma reshape_to_batch_square {A} (b n : nat) (d : list A) :
  torch_reshape (mkTensor (b :: replicate (2 * n) 2) d) (py_shape [b; 2 ^ n; 2 ^ n])
  = Ok (mkTensor [b; 2 ^ n; 2 ^ n] d).
Proof.
  apply (torch_reshape_py_shape (mkTensor _ d)). cbn [shape].
  by rewrite numel_layout, numel_batch_square.
Qed.

(** The diagonals of a batch of square matrices, one after the other. *)
Lemma torch_diagonal_batch (b m : nat) (d : list complex) :
  torch_diagonal (mkTensor [b; m; m] d) 1 2
  = Ok (mkTensor [b; m] (mjoin (mat_diag m m <$> chunks b (m * m) d))).
Proof.
  unfold torch_diagonal. cbn [shape data length]. simpl.
  by rewrite Nat.min_id, Nat.mul_1_r.
Qed.

Lemma torch_diagonal_square (m : nat) (d : list complex) :
  torch_diagonal (mkTensor [m; m] d) 0 1
  = Ok (mkTensor [m] (mat_diag m m (take (m * m) d))).
Proof.
  unfold torch_diagonal. cbn [shape data length]. simpl.
  by rewrite Nat.min_id, app_nil_r.
Qed.

End Views.

(** ** A freshly constructed device *)

Section Fresh.
Context {SC : Scalar}.

Lemma load_batch (st : Store) (g gb : list complex) :
  load (st ++ [g; gb]) (S (length st)) = gb.
Proof.
  unfold load.
  replace (st ++ [g; gb]) with ((st ++ [g]) ++ [gb]) by by rewrite <- app_assoc.
  rewrite list_lookup_middle; [done|]. rewrite length_app. simpl. lia.
Qed.

Lemma value_of_batch (st : Store) (g gb : list complex) (s : list nat) :
  value_of (st ++ [g; gb]) (mkRef (S (length st)) s) = mkTensor s gb.
Proof. unfold value_of. cbn [storage ref_shape]. by rewrite load_batch. Qed.

Lemma length_ground_square (n : nat) : length (ground (2 ^ (2 * n))) = 2 ^ n * 2 ^ n.
Proof. rewrite length_ground by apply pow2_pos. apply pow2_double. Qed.

(** The trace of every batch element of a replicated ground state. *)
Lemma trace_replicated_ground (st : Store) (d : NoiseDevice) (out : list (Tensor complex))
    (b n : nat) (i : Z) :
  n_wires d = n →
  value_of st (densities d)
  = mkTensor (b :: replicate (2 * n) 2) (mjoin (replicate b (ground (2 ^ (2 * n))))) →
  (0 ≤ i < Z.of_nat b)%Z →
  calc_trace i (mkWorld st d out) = (Ok c1, mkWorld st d out).
Proof.
  intros Hn Hv Hi. rewrite calc_trace_run. cbn [store self]. rewrite Hv, Hn.
  rewrite select_replicated by (done || apply length_ground_square).
  rewrite reshape_to_square, torch_trace_ground by apply pow2_pos. done.
Qed.

(** The probabilities of a replicated ground state. *)
Lemma probs_replicated_ground (st : Store) (d : NoiseDevice) (out : list (Tensor complex))
    (b n : nat) :
  n_wires d = n →
  value_of st (densities d)
  = mkTensor (b :: replicate (2 * n) 2) (mjoin (replicate b (ground (2 ^ (2 * n))))) →
  get_probs_1d (mkWorld st d out)
  = (Ok (mkTensor [b; 2 ^ n]
           (mjoin (replicate b (r1 :: replicate (2 ^ n - 1) r0)))),
     mkWorld st d out).
Proof.
  intros Hn Hv. rewrite get_probs_1d_run. cbn [store self]. rewrite Hv, Hn.
  cbn [shape0 shape]. cbv zeta. rewrite reshape_to_batch_square, torch_diagonal_batch.
  f_equal. f_equal. unfold torch_abs. cbn [shape data]. f_equal.
  rewrite chunks_join_replicate by apply length_ground_square.
  rewrite fmap_replicate, mat_diag_ground by apply pow2_pos.
  by rewrite fmap_join_replicate, cabs_ground.
Qed.

(** The probabilities of a ground-state snapshot. *)
Lemma prob_ground_snapshot (st : Store) (d : NoiseDevice) (out : list (Tensor complex))
    (n : nat) :
  n_wires d = n →
  value_of st (density d) = mkTensor (replicate (2 * n) 2) (ground (2 ^ (2 * n))) →
  get_prob_1d (mkWorld st d out)
  = (Ok (mkTensor [2 ^ n] (r1 :: replicate (2 ^ n - 1) r0)), mkWorld st d out).
Proof.
  intros Hn Hv. rewrite get_prob_1d_run. cbn [store self]. rewrite Hv, Hn.
  rewrite (torch_reshape_py_shape (mkTensor _ _) [2 ^ n; 2 ^ n]).
  2:{ cbn [shape]. rewrite numel_replicate, pow2_double. simpl. lia. }
  cbn [data]. rewrite torch_diagonal_square. unfold torch_abs. cbn [shape data].
  rewrite take_ge by (rewrite length_ground_square; lia).
  by rewrite mat_diag_ground, cabs_ground by apply pow2_pos.
Qed.

End Fresh.

(** ** Outer products *)

Lemma chunks_fmap {A B} (f : A → B) (b m : nat) (d : list A) :
  chunks b m (f <$> d) = (fmap f : list A → list B) <$> chunks b m d.
Proof.
  revert d. induction b as [|b IH]; intros d; [done|].
  rewrite !chunks_S, fmap_cons, <- fmap_take, <- fmap_drop. by rewrite IH.
Qed.

(** Entry [(j, k)] of rows of equal length laid end to end. *)
Lemma lookup_join_rows {A} (f : nat → nat → A) (r m j k : nat) :
  j < r → k < m →
  mjoin ((λ j, f j <$> seq 0 m) <$> seq 0 r) !! (j * m + k) = Some (f j k).
Proof.
  intros Hj Hk.
  set (ls := (λ j, f j <$> seq 0 m) <$> seq 0 r).
  assert (Forall (λ y, length y = m) ls) as Hall.
  { apply Forall_fmap, Forall_forall. intros x _. simpl.
    by rewrite length_fmap, length_seq. }
  assert (ls !! j = Some (f j <$> seq 0 m)) as Hrow.
  { unfold ls. rewrite list_lookup_fmap, lookup_seq_lt by done. done. }
  pose proof (row_join m j ls _ Hall Hrow) as Hr.
  transitivity (row m j (mjoin ls) !! k).
  - unfold row. rewrite lookup_take_lt, lookup_drop by done. done.
  - rewrite Hr, list_lookup_fmap, lookup_seq_lt by done. done.
Qed.

Lemma length_join_rows {A} (f : nat → nat → A) (r m : nat) :
  length (mjoin ((λ j, f j <$> seq 0 m) <$> seq 0 r)) = r * m.
Proof.
  induction r as [|r IH]; [done|].
  rewrite seq_S, fmap_app, join_app, length_app, IH. simpl.
  rewrite app_nil_r, length_fmap, length_seq. lia.
Qed.

Lemma fmap_join {A B} (f : A → B) (ls : list (list A)) :
  f <$> mjoin ls = mjoin ((fmap f : list A → list B) <$> ls).
Proof. induction ls as [|l ls IH]; [done|]. simpl. by rewrite fmap_app, IH. Qed.

Section OuterProducts.
Context {SC : Scalar}.
Lemma nth_cconj (a : list complex) (j : nat) :
  nth j (cconj <$> a) c0 = cconj (nth j a c0).
Proof.
  rewrite !nth_lookup, list_lookup_fmap.
  destruct (a !! j); simpl; [done|]. by rewrite cconj_0.
Qed.

Lemma mat_transpose_column (m : nat) (x : list complex) :
  length x = m → mat_transpose m 1 x = x.
Proof.
  intros <-. unfold mat_transpose. simpl seq. rewrite fmap_cons. simpl mjoin.
  rewrite app_nil_r. rewrite <- (nth_map_seq c0 x) at 2.
  apply list_fmap_ext. intros i k _. f_equal. lia.
Qed.

(** A column times its conjugated row is the outer product. *)
Lemma mat_mul_outer (a : list complex) :
  mat_mul (length a) 1 (length a) a (cconj <$> a) = outer a.
Proof.
  unfold mat_mul, outer. f_equal.
  apply list_fmap_ext. intros _ i _.
  apply list_fmap_ext. intros _ j _.
  simpl seq. rewrite fmap_cons. simpl fmap. rewrite csum_singleton, nth_cconj.
  do 2 f_equal; f_equal; lia.
Qed.

Lemma lifted_outer (m b : nat) (d : list complex) :
  length d = b * m → lifted m b d = mjoin (outer <$> chunks b m d).
Proof.
  intros Hd. unfold lifted. rewrite Nat.mul_1_r, Nat.mul_1_l. f_equal.
  rewrite (fmap_fixed (mat_transpose m 1)).
  2:{ eapply Forall_impl; [apply chunks_lengths; rewrite length_fmap; lia|].
      intros x Hx. by apply mat_transpose_column. }
  rewrite join_chunks by (rewrite length_fmap; done).
  rewrite chunks_fmap, zip_with_fmap_r, zip_with_diag.
  apply Forall_fmap_ext_1.
  eapply Forall_impl; [apply chunks_lengths; lia|].
  intros x Hx. simpl. rewrite <- Hx. apply mat_mul_outer.
Qed.

Lemma entry_outer (psi : list complex) (j k : nat) :
  j < length psi → k < length psi →
  entry (length psi) (outer psi) j k = cmul (nth j psi c0) (cconj (nth k psi c0)).
Proof.
  intros Hj Hk. unfold entry, outer.
  apply nth_lookup_Some.
  apply (lookup_join_rows (λ j k, cmul (nth j psi c0) (cconj (nth k psi c0)))); done.
Qed.

Lemma length_outer (psi : list complex) : length (outer psi) = length psi * length psi.
Proof. apply length_join_rows. Qed.

Lemma mat_diag_outer (psi : list complex) :
  mat_diag (length psi) (length psi) (outer psi) = (λ z, cmul z (cconj z)) <$> psi.
Proof.
  unfold mat_diag. rewrite Nat.min_id.
  transitivity ((λ z, cmul z (cconj z)) <$> ((λ i, nth i psi c0) <$> seq 0 (length psi))).
  2:{ by rewrite nth_map_seq. }
  rewrite <- list_fmap_compose.
  apply list_fmap_ext. intros i k Hk. simpl.
  apply lookup_seq in Hk as [-> Hlt]. simpl.
  by apply entry_outer.
Qed.

(** The trace of an outer product is the squared norm. *)
Lemma csum_diag_outer (psi : list complex) :
  csum (mat_diag (length psi) (length psi) (outer psi)) = (rsum (cnormsq <$> psi), r0).
Proof.
  rewrite mat_diag_outer. unfold csum, c0. rewrite foldl_cadd_pair. unfold rsum.
  f_equal.
  - f_equal. rewrite <- list_fmap_compose. apply list_fmap_ext.
    intros i z _. unfold compose. by rewrite cmul_conj.
  - rewrite <- list_fmap_compose.
    rewrite (fmap_constant _ r0).
    + apply foldl_radd_zeros.
    + apply Forall_forall. intros z _. unfold compose. by rewrite cmul_conj.
Qed.

End OuterProducts.

(** ** Views and strides *)

(** Settles a stride check on a shape of known length by trying all the
    outcomes of its comparisons. *)
Ltac compare_sizes :=
  repeat first
    [ progress cbn [take_view_axes match_chunks andb orb negb]
    | match goal with
      | |- context [Nat.ltb ?a ?b] => destruct (Nat.ltb_spec a b)
      | |- context [Nat.eqb ?a ?b] => destruct (Nat.eqb_spec a b)
      end ];
  first [reflexivity | exfalso; nia].

Lemma view_ok_empty (s strides view : list nat) :
  numel s = 0 → view_ok s strides view = true.
Proof.
  intros H. unfold view_ok.
  destruct (reverse (with_strides s strides)) as [|[size stride] outer]; [done|].
  by rewrite H.
Qed.

Lemma with_strides_matrix (b m : nat) (strides : list nat) :
  ∃ x y, with_strides [b; m] strides = [(b, x); (m, y)].
Proof.
  unfold with_strides. destruct strides as [|x [|y strides]]; simpl; eauto.
Qed.

(** A matrix can always be viewed with a trailing axis of size 1: no two
    axes have to merge. *)
Lemma view_ok_matrix (b m : nat) (strides : list nat) :
  view_ok [b; m] strides [b; m; 1] = true.
Proof.
  destruct (Nat.eq_dec (numel [b; m]) 0) as [Hz|Hnz]; [by apply view_ok_empty|].
  unfold view_ok. destruct (with_strides_matrix b m strides) as (x & y & ->).
  change (reverse [(b, x); (m, y)]) with [(m, y); (b, x)].
  change (reverse [b; m; 1]) with [1; m; b].
  apply Nat.eqb_neq in Hnz as Hnz'. rewrite Hnz'.
  simpl in Hnz. assert (1 ≤ b ∧ 1 ≤ m) as [Hb Hm] by nia. clear Hnz Hnz'.
  compare_sizes.
Qed.

Lemma numel_app (l k : list nat) : numel (l ++ k) = numel l * numel k.
Proof. unfold numel. induction l as [|x l IH]; simpl; [lia|]. rewrite IH. lia. Qed.

Lemma numel_reverse (l : list nat) : numel (reverse l) = numel l.
Proof.
  induction l as [|x l IH]; [done|].
  rewrite reverse_cons, numel_app, IH. simpl. lia.
Qed.

Lemma numel_cons_pos (x : nat) (l : list nat) : numel (x :: l) ≠ 0 → x ≠ 0 ∧ numel l ≠ 0.
Proof. simpl. nia. Qed.

Lemma length_contiguous_strides (s : list nat) :
  length (contiguous_strides s) = length s.
Proof. induction s as [|x s IH]; [done|]. simpl. by rewrite IH. Qed.

(** The stride of an axis of a contiguous tensor is the number of entries
    to its right. *)
Lemma contiguous_strides_cons (x : nat) (s : list nat) :
  numel s ≠ 0 →
  contiguous_strides (x :: s) = numel s :: contiguous_strides s.
Proof.
  revert x. induction s as [|y s IH]; intros x Hs; [done|].
  apply numel_cons_pos in Hs as [Hy Hs].
  change (contiguous_strides (x :: y :: s))
    with (match contiguous_strides (y :: s) with
          | stride :: _ => Nat.max y 1 * stride
          | [] => 1
          end :: contiguous_strides (y :: s)).
  rewrite (IH y Hs). f_equal. simpl. lia.
Qed.

Lemma zip_padded {A B} (l : list A) (k pad : list B) :
  length k = length l → zip l (k ++ pad) = zip l k.
Proof.
  revert k. induction l as [|x l IH]; intros [|y k] Hlen; try done.
  simpl in *. f_equal. apply IH. lia.
Qed.

Lemma packed_axes_app (t : nat) (l k : list nat) :
  packed_axes t (l ++ k) = packed_axes t l ++ packed_axes (t * numel l) k.
Proof.
  revert t. induction l as [|x l IH]; intros t; simpl.
  - f_equal. lia.
  - rewrite IH. do 3 f_equal. lia.
Qed.

(** The stride check walks a contiguous tensor as [packed_axes] lists it. *)
Lemma contiguous_packed (s : list nat) :
  numel s ≠ 0 →
  reverse (with_strides s (contiguous_strides s)) = packed_axes 1 (reverse s).
Proof.
  unfold with_strides. rewrite zip_padded by apply length_contiguous_strides.
  induction s as [|x s IH]; intros Hs; [done|].
  apply numel_cons_pos in Hs as [Hx Hs].
  rewrite contiguous_strides_cons by done.
  change (zip (x :: s) (numel s :: contiguous_strides s))
    with ((x, numel s) :: zip s (contiguous_strides s)).
  rewrite !reverse_cons, IH, packed_axes_app, numel_reverse by done.
  simpl. do 3 f_equal. lia.
Qed.

(** The axes of the requested shape fill a chunk that has as many entries
    as they have together. *)
Lemma take_view_axes_all (view_rev : list nat) (acc N : nat) :
  N ≠ 0 → acc * numel view_rev = N →
  take_view_axes view_rev acc N = ([], N).
Proof.
  intros HN. revert acc. induction view_rev as [|v rest IH]; intros acc Hacc.
  - simpl in *. f_equal. lia.
  - simpl in Hacc. cbn [take_view_axes].
    destruct (Nat.ltb_spec acc N) as [Hlt|Hge]; cbn [orb].
    + apply IH. lia.
    + destruct (Nat.eqb_spec v 1) as [->|Hv].
      * apply IH. lia.
      * exfalso. destruct (numel rest) as [|[|k]], v as [|[|v]]; try done; nia.
Qed.

(** On a contiguous tensor no chunk ends before the first axis. *)
Lemma match_chunks_packed (sr view_rev : list nat) (x t tn base : nat) :
  t = tn * base →
  match_chunks (packed_axes t (x :: sr)) view_rev tn base
  = (let '(view_rev', view_numel) := take_view_axes view_rev 1 (tn * numel (x :: sr)) in
     (view_numel =? tn * numel (x :: sr))
     && match view_rev' with [] => true | _ => false end).
Proof.
  revert x t tn. induction sr as [|y sr IH]; intros x t tn Ht.
  - cbn [packed_axes match_chunks]. simpl numel. by rewrite Nat.mul_1_r.
  - change (packed_axes t (x :: y :: sr))
      with ((x, t) :: packed_axes (t * x) (y :: sr)).
    cbn [match_chunks]. change (packed_axes (t * x) (y :: sr))
      with ((y, t * x) :: packed_axes (t * x * y) sr).
    cbn iota beta.
    replace (t * x =? tn * x * base) with true by (symmetry; apply Nat.eqb_eq; lia).
    rewrite andb_false_r.
    change ((y, t * x) :: packed_axes (t * x * y) sr)
      with (packed_axes (t * x) (y :: sr)).
    rewrite (IH y (t * x) (tn * x)) by lia.
    assert (tn * x * numel (y :: sr) = tn * numel (x :: y :: sr)) as -> by (simpl; lia).
    done.
Qed.

(** A contiguous tensor can be viewed in every shape with as many entries. *)
Lemma view_ok_contiguous (s view : list nat) :
  numel view = numel s →
  view_ok s (contiguous_strides s) view = true.
Proof.
  intros Hview.
  destruct (Nat.eq_dec (numel s) 0) as [Hz|Hnz]; [by apply view_ok_empty|].
  unfold view_ok. rewrite contiguous_packed by done.
  destruct (reverse s) as [|x sr] eqn:Hrev; [done|].
  change (packed_axes 1 (x :: sr)) with ((x, 1) :: packed_axes (1 * x) sr).
  rewrite (proj2 (Nat.eqb_neq _ _) Hnz).
  change ((x, 1) :: packed_axes (1 * x) sr) with (packed_axes 1 (x :: sr)).
  rewrite (match_chunks_packed sr (reverse view) x 1 1 1) by done.
  rewrite <- Hrev, numel_reverse, Nat.mul_1_l.
  rewrite take_view_axes_all; [by rewrite Nat.eqb_refl| |].
  - done.
  - rewrite numel_reverse. lia.
Qed.

Section Viewable.
Context {ST : Strides}.

(** A batch of shape [[b, m]] can be viewed as [(-1, m, 1)] whatever its
    strides are. *)
Lemma viewable_matrix (src : TensorRef) (b m : nat) :
  ref_shape src = [b; m] → m ≠ 0 → viewable src m.
Proof.
  intros Hs Hm. unfold viewable. rewrite Hs.
  replace (numel [b; m] / m) with b; [apply view_ok_matrix|].
  simpl. rewrite Nat.mul_1_r. by rewrite Nat.div_mul.
Qed.

(** A batch without entries can be viewed whatever its strides are. *)
Lemma viewable_empty (src : TensorRef) (m : nat) :
  numel (ref_shape src) = 0 → viewable src m.
Proof. intros H. by apply view_ok_empty. Qed.

(** A contiguous batch can be viewed as [(-1, m, 1)] when [m] divides the
    number of its entries. *)
Lemma viewable_contiguous (src : TensorRef) (m : nat) :
  contiguous src → m ≠ 0 → numel (ref_shape src) mod m = 0 → viewable src m.
Proof.
  intros Hc Hm Hdiv. unfold viewable. rewrite Hc. apply view_ok_contiguous.
  simpl. rewrite Nat.mul_1_r.
  apply Nat.Div0.div_exact in Hdiv. lia.
Qed.

End Viewable.

(** ** Cloning *)

Section Cloning.
Context {SC : Scalar} {ST : Strides}.

Lemma clone_densities_run (src : TensorRef) (w : World) :
  clone_densities src w
  = (Ok tt,
     mkWorld (store w ++ [load (store w) (storage src)])
             (with_densities (mkRef (length (store w)) (ref_shape src)) (self w))
             (stdout w)).
Proof. by destruct w. Qed.

Lemma numel_column (m : nat) : numel [m; 1] = m.
Proof. simpl. lia. Qed.

Lemma clone_from_states_run (src : TensorRef) (w : World) (b n : nat) (dims : list nat) :
  n_wires (self w) = n →
  ref_shape src = b :: dims →
  numel dims = 2 ^ n →
  viewable src (2 ^ n) →
  (2 * (Z.of_nat (length (ref_shape src)) - 1)
   = Z.of_nat (length (ref_shape (densities (self w)))) - 1)%Z →
  clone_from_states src w
  = (Ok tt,
     mkWorld (store w ++ [lifted (2 ^ n) b (load (store w) (storage src))])
             (with_densities (mkRef (length (store w)) (b :: replicate (2 * n) 2)) (self w))
             (stdout w)).
Proof.
  intros Hn Hs Hdims Hview Hrank. destruct w as [st d out]. cbn [store self stdout] in *.
  unfold clone_from_states, mbind, Exec_bind, exec_bind, attr, on_store, deref, lift,
    set_self, alloc, py_assert, exec_ret.
  cbn [store self stdout].
  apply Z.eqb_eq in Hrank. rewrite Hrank.
  unfold viewable in Hview.
  unfold value_of. cbn [store self stdout]. rewrite Hs, Hn in *. cbn [shape0 shape].
  unfold torch_view. cbn [shape data]. rewrite infer_size_leading, numel_column.
  assert (numel (b :: dims) = b * 2 ^ n) as Hnumel by (simpl; by rewrite Hdims).
  rewrite Hnumel in *.
  pose proof (pow2_pos n) as Hpos.
  destruct (Nat.ltb_spec 0 (2 ^ n)) as [_|?]; [|lia].
  rewrite Nat.Div0.mod_mul. rewrite Nat.div_mul in * by lia. cbn [andb Nat.eqb].
  rewrite Hview.
  unfold torch_conj. cbn [shape data torch_transpose torch_bmm].
  rewrite Nat.eqb_refl. cbn [andb Nat.eqb shape data].
  unfold reshape_ref. cbn [densities with_densities ref_shape storage].
  rewrite infer_size_py_shape, numel_layout, numel_batch_square, Nat.eqb_refl.
  done.
Qed.

(** When the rank assertion fails nothing has been touched. *)
Lemma clone_from_states_rank_mismatch (src : TensorRef) (w : World) :
  (2 * (Z.of_nat (length (ref_shape src)) - 1)
   ≠ Z.of_nat (length (ref_shape (densities (self w)))) - 1)%Z →
  clone_from_states src w = (Raise AssertionError, w).
Proof.
  intros Hrank. destruct w as [st d out]. cbn [store self stdout] in *.
  unfold clone_from_states, mbind, Exec_bind, exec_bind, attr, py_assert, lift.
  cbn [store self stdout]. apply Z.eqb_neq in Hrank. by rewrite Hrank.
Qed.

End Cloning.

(** ** The buffer after a lift *)

Section Lifted.
Context {SC : Scalar} {ST : Strides}.

Lemma outer_chunks_lengths (b m : nat) (d : list complex) :
  length d = b * m →
  Forall (λ y, length y = m * m) (outer <$> chunks b m d).
Proof.
  intros Hd. apply Forall_fmap.
  eapply Forall_impl; [apply (chunks_lengths b m d); lia|].
  intros x Hx. simpl. by rewrite length_outer, Hx.
Qed.

Lemma select_after_lift (n b : nat) (d : list complex) (i : nat) :
  length d = b * 2 ^ n → i < b →
  torch_select (mkTensor (b :: replicate (2 * n) 2) (mjoin (outer <$> chunks b (2 ^ n) d)))
    (Z.of_nat i)
  = Ok (mkTensor (replicate (2 * n) 2) (outer (row (2 ^ n) i d))).
Proof.
  intros Hd Hi. rewrite torch_select_nonneg by lia. rewrite Nat2Z.id. do 2 f_equal.
  rewrite numel_replicate, pow2_double.
  apply row_join; [by apply outer_chunks_lengths|].
  by rewrite list_lookup_fmap, lookup_chunks.
Qed.

Lemma matrix_after_lift (w : World) (n b : nat) (d : list complex) (i : nat) :
  holds_lift w n b d → i < b →
  get_2d_matrix (Z.of_nat i) w
  = (Ok (mkTensor [2 ^ n; 2 ^ n] (outer (row (2 ^ n) i d))), w).
Proof.
  intros (Hn & Hd & Hv) Hi. rewrite get_2d_matrix_run, Hv, Hn.
  by rewrite select_after_lift, reshape_to_square.
Qed.

Lemma trace_after_lift (w : World) (n b : nat) (d : list complex) (i : nat) :
  holds_lift w n b d → i < b →
  calc_trace (Z.of_nat i) w = (Ok (rsum (cnormsq <$> row (2 ^ n) i d), r0), w).
Proof.
  intros (Hn & Hd & Hv) Hi. rewrite calc_trace_run, Hv, Hn.
  rewrite select_after_lift, reshape_to_square by done.
  unfold torch_trace. cbn [shape data].
  rewrite <- (length_row (2 ^ n) b i d Hd Hi) at 1 2.
  by rewrite csum_diag_outer.
Qed.

Lemma probs_after_lift (w : World) (n b : nat) (d : list complex) :
  holds_lift w n b d →
  get_probs_1d w
  = (Ok (mkTensor [b; 2 ^ n]
           (mjoin ((fmap (λ z, cabs (cmul z (cconj z))) : list complex → list real)
                     <$> chunks b (2 ^ n) d))), w).
Proof.
  intros (Hn & Hd & Hv). rewrite get_probs_1d_run, Hv, Hn. cbv zeta.
  cbn [shape0 shape]. rewrite reshape_to_batch_square, torch_diagonal_batch.
  unfold torch_abs. cbn [shape data]. do 3 f_equal.
  pose proof (chunks_join (2 ^ n * 2 ^ n) (outer <$> chunks b (2 ^ n) d)) as Hc.
  rewrite length_fmap, length_chunks in Hc. rewrite Hc by by apply outer_chunks_lengths.
  rewrite fmap_join, <- !list_fmap_compose. f_equal.
  apply Forall_fmap_ext_1.
  eapply Forall_impl; [apply (chunks_lengths b (2 ^ n) d); lia|].
  intros x Hx. unfold compose. rewrite <- Hx, mat_diag_outer.
  by rewrite <- list_fmap_compose.
Qed.

(** A successful lift establishes [holds_lift]. *)
Lemma clone_from_states_lifts (src : TensorRef) (w : World) (b n : nat) (dims : list nat) :
  n_wires (self w) = n →
  ref_shape src = b :: dims →
  numel dims = 2 ^ n →
  viewable src (2 ^ n) →
  length (load (store w) (storage src)) = b * 2 ^ n →
  (2 * (Z.of_nat (length (ref_shape src)) - 1)
   = Z.of_nat (length (ref_shape (densities (self w)))) - 1)%Z →
  ∃ w', clone_from_states src w = (Ok tt, w')
    ∧ ref_shape (densities (self w')) = b :: replicate (2 * n) 2
    ∧ holds_lift w' n b (load (store w) (storage src)).
Proof.
  intros Hn Hs Hdims Hview Hlen Hrank. eexists. split.
  { by apply (clone_from_states_run src w b n dims). }
  cbn [self store densities with_densities ref_shape]. split; [done|].
  split; [done|]. split; [done|].
  unfold value_of, holds_lift.
  cbn [self store densities with_densities storage ref_shape]. rewrite load_new.
  by rewrite lifted_outer.
Qed.

End Lifted.

(** ** What the clones leave alone *)

Section Frames.
Context {SC : Scalar} {ST : Strides}.

Lemma clone_densities_frame (src : TensorRef) (w : World) :
  same_but_densities w (snd (clone_densities src w)).
Proof.
  rewrite clone_densities_run. unfold same_but_densities. cbn.
  repeat split. intros a Ha. by apply load_old.
Qed.

Lemma clone_from_states_frame (src : TensorRef) (w : World) :
  same_but_densities w (snd (clone_from_states src w)).
Proof.
  destruct w as [st d out].
  unfold clone_from_states, mbind, Exec_bind, exec_bind, attr, on_store, deref, lift,
    set_self, alloc, py_assert, exec_ret.
  cbn [store self stdout].
  repeat match goal with
         | |- context [if ?c then _ else _] => destruct c
         | |- context [match ?o with Ok _ => _ | Raise _ => _ end] => destruct o
         end;
    unfold same_but_densities; cbn; repeat split; try done;
    intros ??; by apply load_old.
Qed.

Lemma load_app_l (st extra : Store) (a : nat) :
  a < length st → load (st ++ extra) a = load st a.
Proof. intros H. unfold load. by rewrite lookup_app_l. Qed.

(** The batched views of a buffer in the expanded layout have the batch
    size of the buffer. *)
Lemma batched_views_shapes (w : World) (n b : nat) :
  n_wires (self w) = n →
  ref_shape (densities (self w)) = b :: replicate (2 * n) 2 →
  shape0 (value_of (store w) (densities (self w))) = Ok b
  ∧ (∃ p, get_probs_1d w = (Ok p, w) ∧ shape p = [b; 2 ^ n])
  ∧ (∃ m, get_densities_2d w = (Ok m, w) ∧ shape m = [b; 2 ^ n; 2 ^ n]).
Proof.
  intros Hn Hs. rewrite get_probs_1d_run, get_densities_2d_run. cbv zeta.
  unfold value_of. rewrite Hs, Hn. cbn [shape0 shape].
  rewrite reshape_to_batch_square, torch_diagonal_batch.
  split; [done|]. split; eexists; (split; [reflexivity|done]).
Qed.

(** The snapshot views of a ground-state snapshot. *)
Lemma snapshot_views_ground (w : World) (n : nat) :
  n_wires (self w) = n →
  value_of (store w) (density (self w))
  = mkTensor (replicate (2 * n) 2) (ground (2 ^ (2 * n))) →
  get_density_2d w = (Ok (mkTensor [2 ^ n; 2 ^ n] (ground (2 ^ (2 * n)))), w)
  ∧ get_prob_1d w = (Ok (mkTensor [2 ^ n] (r1 :: replicate (2 ^ n - 1) r0)), w).
Proof.
  intros Hn Hv. split.
  - rewrite get_density_2d_run, Hv, Hn.
    rewrite (torch_reshape_py_shape (mkTensor _ _) [2 ^ n; 2 ^ n]); [done|].
    cbn [shape]. rewrite numel_replicate, pow2_double. simpl. lia.
  - destruct w as [st d out]. by apply prob_ground_snapshot.
Qed.

End Frames.

(** * Properties of the device *)

Section DeviceProperties.
Context {SC : Scalar} {ST : Strides}.
Add Ring real_ring_device : real_ring.

(** C2.  For every [n_wires >= 1] and [bsz >= 1] the constructor succeeds;
    the batch buffer of the new device has shape [[bsz] + [2] * (2 * n_wires)]
    and holds [bsz] copies of the ground state, and [calc_trace i] returns
    one for every batch index [0 <= i < bsz], leaving the device as it is. *)
Theorem C2_fresh_device_normalized (n b : nat) (name dev : string) (rec : bool)
    (nm : NoiseModel) (st : Store) :
  1 ≤ n → 1 ≤ b →
  ∃ d st',
    NoiseDevice_init n name b dev rec nm st = (Ok d, st')
    ∧ ref_shape (densities d) = b :: replicate (2 * n) 2
    ∧ load st' (storage (densities d)) = mjoin (replicate b (ground (2 ^ (2 * n))))
    ∧ backed st' (densities d)
    ∧ ∀ (i : Z) (out : list (Tensor complex)),
        (0 ≤ i < Z.of_nat b)%Z →
        calc_trace i (mkWorld st' d out) = (Ok c1, mkWorld st' d out).
Proof.
  intros _ _. eexists _, _. split; [apply NoiseDevice_init_run|].
  cbn [densities ref_shape storage]. split; [done|]. split; [apply load_batch|]. split.
  - unfold backed. cbn [storage ref_shape]. split.
    + rewrite length_app. simpl. lia.
    + rewrite load_batch, length_join_replicate, length_ground_square, numel_layout.
      done.
  - intros i out Hi. eapply trace_replicated_ground; [done| |done].
    cbn [densities]. apply value_of_batch.
Qed.

(** C6.  For a freshly constructed device, row 0 of [get_probs_1d] is a
    vector of reals of length [2 ^ n_wires] with a one at index 0 and zeros
    at the other indices. *)
Theorem C6_ground_state_probabilities (n b : nat) (name dev : string) (rec : bool)
    (nm : NoiseModel) (st : Store) :
  1 ≤ b →
  ∃ d st',
    NoiseDevice_init n name b dev rec nm st = (Ok d, st')
    ∧ ∀ out : list (Tensor complex), ∃ p : Tensor real,
        get_probs_1d (mkWorld st' d out) = (Ok p, mkWorld st' d out)
        ∧ shape p = [b; 2 ^ n]
        ∧ length (row (2 ^ n) 0 (data p)) = 2 ^ n
        ∧ ∀ k, k < 2 ^ n →
            row (2 ^ n) 0 (data p) !! k = Some (if k =? 0 then r1 else r0).
Proof.
  intros Hb. eexists _, _. split; [apply NoiseDevice_init_run|].
  intros out. eexists. split.
  { apply probs_replicated_ground; [done|]. cbn [densities]. apply value_of_batch. }
  cbn [shape data]. split; [done|].
  assert (length (r1 :: replicate (2 ^ n - 1) r0) = 2 ^ n) as Hlen.
  { simpl. rewrite length_replicate. pose proof (pow2_pos n). lia. }
  rewrite row_join_replicate by (done || lia).
  split; [done|]. intros k Hk. destruct k as [|k]; [done|].
  simpl. apply lookup_replicate_2. lia.
Qed.

(** C7.  For a batch buffer in the expanded layout of [n] wires and a
    valid batch index [i] (negative indices count from the end), the matrix
    view [get_2d_matrix i] is a [2^n x 2^n] matrix, the view leaves the
    device untouched, and reshaping the matrix back to [[2] * (2 * n)] gives
    the batch element [densities[i]] itself, entry for entry.  This holds
    for every [n], in particular for 1, 2, 3 and 4. *)
Theorem C7_matrix_view_round_trip (w : World) (n b : nat) (i : Z) :
  n_wires (self w) = n →
  ref_shape (densities (self w)) = b :: replicate (2 * n) 2 →
  (- Z.of_nat b ≤ i < Z.of_nat b)%Z →
  ∃ e m : Tensor complex,
    torch_select (value_of (store w) (densities (self w))) i = Ok e
    ∧ shape e = replicate (2 * n) 2
    ∧ get_2d_matrix i w = (Ok m, w)
    ∧ shape m = [2 ^ n; 2 ^ n]
    ∧ torch_reshape m (py_shape (replicate (2 * n) 2)) = Ok e.
Proof.
  intros Hn Hs Hi. rewrite get_2d_matrix_run, Hn.
  unfold value_of. rewrite Hs.
  assert (∃ k, torch_select
                 (mkTensor (b :: replicate (2 * n) 2)
                    (load (store w) (storage (densities (self w))))) i
               = Ok (mkTensor (replicate (2 * n) 2)
                       (row (numel (replicate (2 * n) 2)) k
                          (load (store w) (storage (densities (self w)))))))
    as [k ->].
  { destruct (Z.lt_ge_cases i 0).
    - eexists. apply torch_select_negative. lia.
    - eexists. apply torch_select_nonneg. lia. }
  eexists _, _. split; [done|]. split; [done|].
  rewrite reshape_to_square. split; [done|]. split; [done|].
  apply (torch_reshape_py_shape (mkTensor _ _)). cbn [shape].
  rewrite numel_replicate, pow2_double. simpl. lia.
Qed.

(** C8.  The views [get_2d_matrix], [get_densities_2d], [get_density_2d],
    [calc_trace], [get_probs_1d] and [get_prob_1d] return the world they
    were called on, whether they succeed or raise; [print_2d] changes
    nothing but the output, to which it adds the matrix that
    [get_2d_matrix] returns.  The result of each view is a function of the
    number of wires and of the current contents of the two buffers: two
    worlds that agree on these give the same result. *)
Theorem C8_views_are_pure :
  ((∀ i, pure_view (get_2d_matrix i))
   ∧ pure_view get_densities_2d
   ∧ pure_view get_density_2d
   ∧ (∀ i, pure_view (calc_trace i))
   ∧ pure_view get_probs_1d
   ∧ pure_view get_prob_1d
   ∧ (∀ i w, store (snd (print_2d i w)) = store w
             ∧ self (snd (print_2d i w)) = self w
             ∧ stdout (snd (print_2d i w))
               = stdout w ++ match fst (get_2d_matrix i w) with
                             | Ok m => [m]
                             | Raise _ => []
                             end))
  ∧ ((∀ i, reads_buffers_only (get_2d_matrix i))
     ∧ reads_buffers_only get_densities_2d
     ∧ reads_buffers_only get_density_2d
     ∧ (∀ i, reads_buffers_only (calc_trace i))
     ∧ reads_buffers_only get_probs_1d
     ∧ reads_buffers_only get_prob_1d
     ∧ (∀ i, reads_buffers_only (print_2d i))).
Proof.
  unfold pure_view, reads_buffers_only. split.
  - repeat match goal with |- _ ∧ _ => split end; intros;
      rewrite ?print_2d_run;
      rewrite ?get_2d_matrix_run, ?get_densities_2d_run, ?get_density_2d_run,
        ?calc_trace_run, ?get_probs_1d_run, ?get_prob_1d_run;
      try done.
    cbn [fst].
    destruct (match torch_select _ i with Ok _ => _ | Raise _ => _ end);
      cbn [snd store self stdout]; repeat split; try done.
    by rewrite app_nil_r.
  - repeat match goal with |- _ ∧ _ => split end; intros;
      match goal with H : same_buffers _ _ |- _ => destruct H as (Hn & Hds & Hd) end;
      rewrite ?print_2d_run;
      rewrite ?get_2d_matrix_run, ?get_densities_2d_run, ?get_density_2d_run,
        ?calc_trace_run, ?get_probs_1d_run, ?get_prob_1d_run;
      cbn [fst]; rewrite ?Hn, ?Hds, ?Hd; try done.
    by destruct (match torch_select _ i with Ok _ => _ | Raise _ => _ end).
Qed.

(** C9.  [reset_op_history] succeeds on every world and leaves the ledger
    empty; the store, and with it the contents of the batch buffer and of the
    snapshot, the buffer references, the number of wires, [bsz], the noise
    model and the remaining attributes are as before. *)
Theorem C9_reset_op_history (w : World) :
  ∃ w', reset_op_history w = (Ok tt, w')
    ∧ op_history (self w') = []
    ∧ store w' = store w
    ∧ densities (self w') = densities (self w)
    ∧ density (self w') = density (self w)
    ∧ _densities (self w') = _densities (self w)
    ∧ n_wires (self w') = n_wires (self w)
    ∧ bsz (self w') = bsz (self w)
    ∧ _noise_model (self w') = _noise_model (self w)
    ∧ _dims (self w') = _dims (self w)
    ∧ record_op (self w') = record_op (self w)
    ∧ device_name (self w') = device_name (self w)
    ∧ device (self w') = device (self w)
    ∧ stdout w' = stdout w.
Proof. eexists. split; [reflexivity|]. cbn. repeat split. Qed.

(** C1.  Let the input of [clone_from_states] have shape [[b, 2^n]] for a
    device of [n] wires, hold [b * 2^n] amplitudes, and pass the rank
    assertion [2 * (input rank - 1) == densities rank - 1].  Then the call
    succeeds, the batch buffer gets the shape [[b] + [2] * (2 * n)], and for
    every batch element [i] the matrix view is the [2^n x 2^n] matrix whose
    entry [(j, k)] is [psi_i[j] * conj(psi_i[k])]: the column [psi_i] times
    its conjugated row.  In particular, on a new device with one wire and
    batch size one, lifting the state vector [[0, 1]] gives the
    probabilities [[0, 1]] and the trace [1]. *)
Theorem C1_clone_from_states_outer_product :
  (∀ (w : World) (src : TensorRef) (n b : nat),
      n_wires (self w) = n →
      ref_shape src = [b; 2 ^ n] →
      length (load (store w) (storage src)) = b * 2 ^ n →
      (2 * (Z.of_nat (length (ref_shape src)) - 1)
       = Z.of_nat (length (ref_shape (densities (self w)))) - 1)%Z →
      ∃ w', clone_from_states src w = (Ok tt, w')
        ∧ ref_shape (densities (self w')) = b :: replicate (2 * n) 2
        ∧ ∀ i, i < b → ∃ m,
            get_2d_matrix (Z.of_nat i) w' = (Ok m, w')
            ∧ shape m = [2 ^ n; 2 ^ n]
            ∧ ∀ j k, j < 2 ^ n → k < 2 ^ n →
                entry (2 ^ n) (data m) j k
                = cmul (nth j (row (2 ^ n) i (load (store w) (storage src))) c0)
                       (cconj (nth k (row (2 ^ n) i (load (store w) (storage src))) c0)))
  ∧ (∀ (name dev : string) (rec : bool) (nm : NoiseModel) (st : Store)
       (out : list (Tensor complex)),
      ∃ d st', NoiseDevice_init 1 name 1 dev rec nm st = (Ok d, st')
        ∧ ∃ w', clone_from_states (mkRef (length st') [1; 2])
                  (mkWorld (st' ++ [[c0; c1]]) d out) = (Ok tt, w')
            ∧ get_probs_1d w' = (Ok (mkTensor [1; 2] [r0; r1]), w')
            ∧ calc_trace 0 w' = (Ok c1, w')).
Proof.
  split.
  - intros w src n b Hn Hs Hlen Hrank.
    pose proof (pow2_pos n) as Hpos.
    destruct (clone_from_states_lifts src w b n [2 ^ n]) as (w' & Hrun & Hshape & Hl);
      try done.
    { simpl. lia. }
    { apply (viewable_matrix src b); [done|lia]. }
    exists w'. split; [done|]. split; [done|].
    intros i Hi. eexists. split; [by apply (matrix_after_lift w' n b)|].
    cbn [shape data]. split; [done|]. intros j k Hj Hk.
    pose proof (length_row (2 ^ n) b i _ Hlen Hi) as Hr.
    rewrite <- Hr at 1. apply entry_outer; by rewrite Hr.
  - intros name dev rec nm st out. eexists _, _.
    split; [apply NoiseDevice_init_run|].
    match goal with
    | |- ∃ w', clone_from_states ?src ?w = _ ∧ _ =>
        destruct (clone_from_states_lifts src w 1 1 [2]) as (w' & Hrun & _ & Hl)
    end; try done.
    { by apply (viewable_matrix _ 1). }
    { cbn [store storage]. by rewrite load_new. }
    cbn [store storage] in Hl. rewrite load_new in Hl.
    exists w'. split; [done|]. split.
    + rewrite (probs_after_lift w' 1 1 _ Hl).
      change (chunks 1 (2 ^ 1) [c0; c1]) with [[c0; c1]].
      cbn [fmap list_fmap mjoin list_join app].
      by rewrite cmul_0_l, cmul_1_1, cabs_0, cabs_1.
    + change 0%Z with (Z.of_nat 0).
      rewrite (trace_after_lift w' 1 1 _ 0 Hl) by lia.
      change (row (2 ^ 1) 0 [c0; c1]) with [c0; c1].
      unfold rsum, cnormsq, c0, c1. simpl. do 3 f_equal. ring.
Qed.

(** C4.  [clone_densities] checks no shape: for every source
    tensor, of whatever shape, the call succeeds and replaces the batch
    buffer by a copy of the source with the same shape (so the batch size
    of the source is adopted) and the same entries.  The copy has a storage
    of its own: whatever is written into the storage of the source
    afterwards, the buffer keeps the entries it was given.  Nothing else in
    the device changes. *)
Theorem C4_clone_densities_copies_any_source (w : World) (src : TensorRef) :
  storage src < length (store w) →
  ∃ w', clone_densities src w = (Ok tt, w')
    ∧ value_of (store w') (densities (self w')) = value_of (store w) src
    ∧ storage (densities (self w')) ≠ storage src
    ∧ (∀ d' : list complex,
          value_of (overwrite (storage src) d' (store w')) (densities (self w'))
          = value_of (store w) src)
    ∧ same_but_densities w w'.
Proof.
  intros Hsrc. pose proof (clone_densities_frame src w) as Hframe.
  rewrite clone_densities_run in Hframe. cbn [snd] in Hframe.
  eexists. split; [apply clone_densities_run|].
  split; [|split; [|split; [|exact Hframe]]];
    cbn [store self densities with_densities];
    unfold value_of, overwrite; cbn [storage ref_shape].
  - by rewrite load_new.
  - lia.
  - intros d'. f_equal. unfold load.
    rewrite list_lookup_insert_ne by lia. by rewrite list_lookup_middle.
Qed.

(** C5.  Let the input of [clone_from_states] pass the rank
    assertion, so that its rank is [n_wires + 1] (the per-qubit layout
    [[b] + [2] * n_wires]; the flat shape [[b, 2^n_wires]] has that rank
    only for one wire), let its strides allow the view [(-1, 2^n_wires, 1)]
    (as those of a contiguous batch do), and let it hold [2^n_wires]
    amplitudes per state, each state of unit norm.  Then the call succeeds
    and [calc_trace i] returns one for every [0 <= i < b], in exact
    arithmetic. *)
Theorem C5_lift_preserves_unit_trace (w : World) (src : TensorRef) (n b : nat)
    (dims : list nat) :
  n_wires (self w) = n →
  ref_shape src = b :: dims →
  numel dims = 2 ^ n →
  viewable src (2 ^ n) →
  length (load (store w) (storage src)) = b * 2 ^ n →
  (2 * (Z.of_nat (length (ref_shape src)) - 1)
   = Z.of_nat (length (ref_shape (densities (self w)))) - 1)%Z →
  (∀ i, i < b → unit_norm (row (2 ^ n) i (load (store w) (storage src)))) →
  ∃ w', clone_from_states src w = (Ok tt, w')
    ∧ ∀ i, i < b → calc_trace (Z.of_nat i) w' = (Ok c1, w').
Proof.
  intros Hn Hs Hdims Hview Hlen Hrank Hunit.
  destruct (clone_from_states_lifts src w b n dims) as (w' & Hrun & _ & Hl); try done.
  exists w'. split; [done|]. intros i Hi.
  rewrite (trace_after_lift w' n b _ i Hl Hi).
  specialize (Hunit i Hi). unfold unit_norm in Hunit. by rewrite Hunit.
Qed.

(** C10.  Neither clone assigns anything but [densities]: whether the
    call succeeds or raises, the number of wires, [bsz], the snapshot, the
    noise model, the ledger and the other attributes are the same, and so
    are the contents of the storages that existed.  Hence, on a device
    built for batch size [b], a clone from a source of batch size
    [b' <> b] (for [clone_from_states], a source whose strides allow the
    view [(-1, 2^n_wires, 1)]) leaves [bsz = b] while the buffer has batch
    size [b']; [get_probs_1d] and [get_densities_2d] return [b'] rows, and
    [get_density_2d] and [get_prob_1d] still return the ground state. *)
Theorem C10_clones_assign_densities_only :
  (∀ (src : TensorRef) (w : World), same_but_densities w (snd (clone_densities src w)))
  ∧ (∀ (src : TensorRef) (w : World), same_but_densities w (snd (clone_from_states src w)))
  ∧ (∀ (n b b' : nat) (name dev : string) (rec : bool) (nm : NoiseModel)
       (st extra : Store) (out : list (Tensor complex)) (src : TensorRef),
        b' ≠ b →
        ∃ d st', NoiseDevice_init n name b dev rec nm st = (Ok d, st')
          ∧ (ref_shape src = b' :: replicate (2 * n) 2 →
             ∃ w', clone_densities src (mkWorld (st' ++ extra) d out) = (Ok tt, w')
                   ∧ adopted_batch n b b' w')
          ∧ (ref_shape src = b' :: replicate n 2 →
             viewable src (2 ^ n) →
             ∃ w', clone_from_states src (mkWorld (st' ++ extra) d out) = (Ok tt, w')
                   ∧ adopted_batch n b b' w')).
Proof.
  split; [apply clone_densities_frame|]. split; [apply clone_from_states_frame|].
  intros n b b' name dev rec nm st extra out src Hne.
  eexists _, _. split; [apply NoiseDevice_init_run|].
  assert (∀ x s, value_of
                   (((st ++ [ground (2 ^ (2 * n));
                             mjoin (replicate b (ground (2 ^ (2 * n))))]) ++ extra) ++ [x])
                   (mkRef (length st) s)
                 = mkTensor s (ground (2 ^ (2 * n)))) as Hsnap.
  { intros x s. unfold value_of. cbn [storage ref_shape]. f_equal.
    rewrite !load_app_l by (rewrite ?length_app; simpl; lia).
    unfold load. by rewrite list_lookup_middle. }
  split.
  - intros Hs. eexists. split; [apply clone_densities_run|].
    match goal with |- adopted_batch _ _ _ ?w0 => set (w' := w0) end.
    destruct (batched_views_shapes w' n b') as (H1 & H2 & H3); [done|exact Hs|].
    destruct (snapshot_views_ground w' n) as (H4 & H5); [done|apply Hsnap|].
    by unfold adopted_batch.
  - intros Hs Hview. eexists. split.
    { apply (clone_from_states_run src _ b' n (replicate n 2)); try done.
      - apply numel_replicate.
      - rewrite Hs. cbn [self densities ref_shape length].
        rewrite !length_replicate. lia. }
    match goal with |- adopted_batch _ _ _ ?w0 => set (w' := w0) end.
    destruct (batched_views_shapes w' n b') as (H1 & H2 & H3); [done|done|].
    destruct (snapshot_views_ground w' n) as (H4 & H5); [done|apply Hsnap|].
    by unfold adopted_batch.
Qed.

End DeviceProperties.

(** * Runs on concrete devices *)

Section ConcreteRuns.
#[local] Existing Instance contiguous_layout.

(** One wire, batch size one: the probabilities start as [[1, 0]]; after
    the lift of the excited state [[0, 1]] they are [[0, 1]] and the trace
    is one. *)
Example excited_state_run :
  let '(w, src) := with_tensor excited_state (boot 1 1) in
  let '(o, w') := clone_from_states src w in
  fst (get_probs_1d w) = Ok (mkTensor [1; 2] [1%Z; 0%Z])
  ∧ o = Ok tt
  ∧ fst (get_probs_1d w') = Ok (mkTensor [1; 2] [0%Z; 1%Z])
  ∧ fst (calc_trace 0 w') = Ok (zc 1 0).
Proof. vm_compute. repeat split. Qed.

(** C3.  A device with one wire is handed one state of four amplitudes.
    The rank assertion passes, the view splits the input into two states of
    two amplitudes, the product of shape [[2, 2, 2]] is assigned to
    [densities], and only then the reshape to [[1, 2, 2]] raises: the call
    fails and the batch buffer is no longer what it was. *)
Theorem C3_failed_lift_overwrites_buffer :
  let '(w, src) := with_tensor wide_state (boot 1 1) in
  let '(o, w') := clone_from_states src w in
  ref_shape src = [1; 4]
  ∧ o = Raise RuntimeError
  ∧ value_of (store w) (densities (self w))
    = mkTensor [1; 2; 2] [zc 1 0; zc 0 0; zc 0 0; zc 0 0]
  ∧ value_of (store w') (densities (self w'))
    = mkTensor [2; 2; 2] [zc 1 0; zc 0 0; zc 0 0; zc 0 0; zc 0 0; zc 0 0; zc 0 0; zc 0 0].
Proof. vm_compute. repeat split. Qed.

(** C4, counterexample to a shape check in [clone_densities]: a vector of
    three entries has not the layout of a device with one wire, yet the
    call succeeds and the batch buffer takes its shape. *)
Lemma C4_counterexample :
  let '(w, src) := with_tensor vector3 (boot 1 1) in
  let '(o, w') := clone_densities src w in
  layout_ok 1 (ref_shape src) = false
  ∧ o = Ok tt
  ∧ ref_shape (densities (self w')) = [3].
Proof. vm_compute. repeat split. Qed.

(** C5, counterexample for flat inputs: two unit-norm states of two wires
    in the shape [[2, 4]] do not pass the rank assertion; the call raises,
    the buffer keeps its single batch element, and [calc_trace 1] raises
    too. *)
Lemma C5_counterexample :
  let '(w, src) := with_tensor flat_states (boot 2 1) in
  let '(o, w') := clone_from_states src w in
  ref_shape src = [2; 2 ^ n_wires (self w)]
  ∧ (∀ i, i < 2 → unit_norm (row 4 i (load (store w) (storage src))))
  ∧ o = Raise AssertionError
  ∧ fst (calc_trace 1 w') = Raise IndexError.
Proof.
  vm_compute. repeat split.
  intros i Hi. destruct i as [|[|i]]; [reflexivity|reflexivity|exfalso; lia].
Qed.

(** C1 on two states of one wire, [[1, 0]] and [[0, 1]]. *)
Lemma C1_witness :
  let '(w, src) := with_tensor basis_states (boot 1 1) in
  ∃ w', clone_from_states src w = (Ok tt, w')
    ∧ ref_shape (densities (self w')) = 2 :: replicate (2 * 1) 2
    ∧ ∀ i, i < 2 → ∃ m,
        get_2d_matrix (Z.of_nat i) w' = (Ok m, w')
        ∧ shape m = [2 ^ 1; 2 ^ 1]
        ∧ ∀ j k, j < 2 ^ 1 → k < 2 ^ 1 →
            entry (2 ^ 1) (data m) j k
            = cmul (nth j (row (2 ^ 1) i (load (store w) (storage src))) c0)
                   (cconj (nth k (row (2 ^ 1) i (load (store w) (storage src))) c0)).
Proof.
  apply (proj1 C1_clone_from_states_outer_product
           (fst (with_tensor basis_states (boot 1 1)))
           (snd (with_tensor basis_states (boot 1 1)))
           1 2); reflexivity.
Defined.

(** C2 on one wire and a batch of two. *)
Lemma C2_witness :
  1 ≤ 1 ∧ 1 ≤ 2
  ∧ ∃ d st',
      NoiseDevice_init 1 "noisedevice" 2 "cpu" false default_noise_model [] = (Ok d, st')
      ∧ ref_shape (densities d) = 2 :: replicate (2 * 1) 2
      ∧ load st' (storage (densities d)) = mjoin (replicate 2 (ground (2 ^ (2 * 1))))
      ∧ backed st' (densities d)
      ∧ ∀ (i : Z) (out : list (Tensor complex)),
          (0 ≤ i < Z.of_nat 2)%Z →
          calc_trace i (mkWorld st' d out) = (Ok c1, mkWorld st' d out).
Proof.
  split; [lia|]. split; [lia|].
  apply (C2_fresh_device_normalized 1 2); lia.
Defined.

(** C6 on two wires and a batch of one. *)
Lemma C6_witness :
  1 ≤ 1
  ∧ ∃ d st',
      NoiseDevice_init 2 "noisedevice" 1 "cpu" false default_noise_model [] = (Ok d, st')
      ∧ ∀ out : list (Tensor complex), ∃ p : Tensor real,
          get_probs_1d (mkWorld st' d out) = (Ok p, mkWorld st' d out)
          ∧ shape p = [1; 2 ^ 2]
          ∧ length (row (2 ^ 2) 0 (data p)) = 2 ^ 2
          ∧ ∀ k, k < 2 ^ 2 →
              row (2 ^ 2) 0 (data p) !! k = Some (if k =? 0 then r1 else r0).
Proof.
  split; [lia|]. apply (C6_ground_state_probabilities 2 1). lia.
Defined.

(** C7 on two wires, a batch of three and the last batch element. *)
Lemma C7_witness :
  ∃ e m : Tensor complex,
    torch_select (value_of (store (boot 2 3)) (densities (self (boot 2 3)))) (-1) = Ok e
    ∧ shape e = replicate (2 * 2) 2
    ∧ get_2d_matrix (-1) (boot 2 3) = (Ok m, boot 2 3)
    ∧ shape m = [2 ^ 2; 2 ^ 2]
    ∧ torch_reshape m (py_shape (replicate (2 * 2) 2)) = Ok e.
Proof.
  apply (C7_matrix_view_round_trip (boot 2 3) 2 3 (-1)); [reflexivity|reflexivity|lia].
Defined.

(** C8 on two worlds with the same buffers and different output. *)
Lemma C8_witness :
  fst (get_probs_1d (boot 1 2))
  = fst (get_probs_1d (mkWorld (store (boot 1 2)) (self (boot 1 2)) [vector3])).
Proof.
  apply (proj1 (proj2 (proj2 (proj2 (proj2 (proj2 C8_views_are_pure)))))).
  repeat split.
Defined.

(** C4 on a source of three density matrices for a device of batch size
    one. *)
Lemma C4_witness :
  let '(w, src) := with_tensor three_densities (boot 1 1) in
  storage src < length (store w)
  ∧ ∃ w', clone_densities src w = (Ok tt, w')
      ∧ value_of (store w') (densities (self w')) = value_of (store w) src
      ∧ storage (densities (self w')) ≠ storage src
      ∧ (∀ d' : list complex,
            value_of (overwrite (storage src) d' (store w')) (densities (self w'))
            = value_of (store w) src)
      ∧ same_but_densities w w'.
Proof.
  assert (storage (snd (with_tensor three_densities (boot 1 1)))
          < length (store (fst (with_tensor three_densities (boot 1 1))))) as H
    by (vm_compute; lia).
  split; [exact H|].
  exact (C4_clone_densities_copies_any_source _ _ H).
Defined.

(** C5 on two basis states of two wires in the per-qubit layout. *)
Lemma C5_witness :
  let '(w, src) := with_tensor layout_states (boot 2 1) in
  ∃ w', clone_from_states src w = (Ok tt, w')
    ∧ ∀ i, i < 2 → calc_trace (Z.of_nat i) w' = (Ok c1, w').
Proof.
  apply (C5_lift_preserves_unit_trace
           (fst (with_tensor layout_states (boot 2 1)))
           (snd (with_tensor layout_states (boot 2 1))) 2 2 [2; 2]);
    try reflexivity.
  intros i Hi. destruct i as [|[|i]]; [reflexivity|reflexivity|exfalso; lia].
Defined.

(** C10 on a device of batch size one: a clone from three density
    matrices, and a lift of three states. *)
Lemma C10_witness :
  3 ≠ 1
  ∧ (∃ d st',
       NoiseDevice_init 1 "noisedevice" 1 "cpu" false default_noise_model [] = (Ok d, st')
       ∧ ∃ w', clone_densities (mkRef 2 [3; 2; 2])
                 (mkWorld (st' ++ [data three_densities]) d []) = (Ok tt, w')
               ∧ adopted_batch 1 1 3 w')
  ∧ (∃ d st',
       NoiseDevice_init 1 "noisedevice" 1 "cpu" false default_noise_model [] = (Ok d, st')
       ∧ ∃ w', clone_from_states (mkRef 2 [3; 2])
                 (mkWorld (st' ++ [data three_states]) d [])
               = (Ok tt, w')
               ∧ adopted_batch 1 1 3 w').
Proof.
  assert (3 ≠ 1) as H by lia. split; [exact H|]. split.
  - destruct (proj2 (proj2 C10_clones_assign_densities_only) 1 1 3 "noisedevice" "cpu"
                false default_noise_model [] [data three_densities] []
                (mkRef 2 [3; 2; 2]) H) as (d & st' & Hinit & Hclone & _).
    exists d, st'. split; [exact Hinit|]. exact (Hclone eq_refl).
  - destruct (proj2 (proj2 C10_clones_assign_densities_only) 1 1 3 "noisedevice" "cpu"
                false default_noise_model []
                [data three_states] []
                (mkRef 2 [3; 2]) H) as (d & st' & Hinit & _ & Hlift).
    exists d, st'. split; [exact Hinit|]. exact (Hlift eq_refl eq_refl).
Defined.

End ConcreteRuns.

(** * Further properties of the device *)

Section IndexedViews.
Context {SC : Scalar}.

Lemma torch_select_in_range {A} (b : nat) (rest : list nat) (d : list A) (i : Z) :
  (- Z.of_nat b ≤ i < Z.of_nat b)%Z →
  torch_select (mkTensor (b :: rest) d) i
  = Ok (mkTensor rest (row (numel rest) (py_index b i) d)).
Proof.
  intros Hi. unfold py_index. destruct (Z.ltb_spec i 0).
  - by rewrite torch_select_negative by lia.
  - by rewrite torch_select_nonneg by lia.
Qed.

Lemma py_index_lt (b : nat) (i : Z) :
  (- Z.of_nat b ≤ i < Z.of_nat b)%Z → py_index b i < b.
Proof. intros Hi. unfold py_index. destruct (Z.ltb_spec i 0); lia. Qed.

Lemma py_index_wrap (b : nat) (i : Z) :
  (- Z.of_nat b ≤ i < 0)%Z → py_index b i = py_index b (i + Z.of_nat b).
Proof.
  intros Hi. unfold py_index.
  destruct (Z.ltb_spec i 0); [|lia].
  destruct (Z.ltb_spec (i + Z.of_nat b) 0); [lia|done].
Qed.

Lemma reshape_square_cases {A} (s : list nat) (d : list A) (n : nat) :
  torch_reshape (mkTensor s d) (py_shape (replicate 2 (2 ^ n)))
  = if numel s =? 2 ^ n * 2 ^ n then Ok (mkTensor [2 ^ n; 2 ^ n] d)
    else Raise RuntimeError.
Proof.
  unfold torch_reshape. rewrite infer_size_py_shape. cbn [shape data].
  replace (numel (replicate 2 (2 ^ n))) with (2 ^ n * 2 ^ n) by (simpl; lia).
  by destruct (numel s =? 2 ^ n * 2 ^ n).
Qed.

Lemma views_index_out_of_range (w : World) (b : nat) (rest : list nat) (i : Z) :
  ref_shape (densities (self w)) = b :: rest →
  (i < - Z.of_nat b ∨ Z.of_nat b ≤ i)%Z →
  get_2d_matrix i w = (Raise IndexError, w)
  ∧ calc_trace i w = (Raise IndexError, w)
  ∧ print_2d i w = (Raise IndexError, w).
Proof.
  intros Hs Hi.
  rewrite print_2d_run, get_2d_matrix_run, calc_trace_run.
  unfold value_of. rewrite Hs, torch_select_out_of_range by done. done.
Qed.

(** X2.  A negative index [-b <= i < 0] counts from the end: [get_2d_matrix],
    [calc_trace] and [print_2d] behave at [i] exactly as at [i + b]. *)
Theorem X2_views_negative_index (w : World) (b : nat) (rest : list nat) (i : Z) :
  ref_shape (densities (self w)) = b :: rest →
  (- Z.of_nat b ≤ i < 0)%Z →
  get_2d_matrix i w = get_2d_matrix (i + Z.of_nat b) w
  ∧ calc_trace i w = calc_trace (i + Z.of_nat b) w
  ∧ print_2d i w = print_2d (i + Z.of_nat b) w.
Proof.
  intros Hs Hi.
  rewrite !print_2d_run, !get_2d_matrix_run, !calc_trace_run.
  unfold value_of. rewrite Hs.
  rewrite !torch_select_in_range by lia. by rewrite (py_index_wrap b i).
Qed.

Lemma indexed_views_need_entry_count (w : World) (b : nat) (rest : list nat) (i : Z) :
  ref_shape (densities (self w)) = b :: rest →
  (- Z.of_nat b ≤ i < Z.of_nat b)%Z →
  let m := 2 ^ n_wires (self w) in
  let e := row (numel rest) (py_index b i) (load (store w) (storage (densities (self w)))) in
  (numel rest = m * m →
     get_2d_matrix i w = (Ok (mkTensor [m; m] e), w)
     ∧ calc_trace i w = (Ok (csum (mat_diag m m e)), w)
     ∧ print_2d i w = (Ok tt, mkWorld (store w) (self w) (stdout w ++ [mkTensor [m; m] e])))
  ∧ (numel rest ≠ m * m →
     get_2d_matrix i w = (Raise RuntimeError, w)
     ∧ calc_trace i w = (Raise RuntimeError, w)
     ∧ print_2d i w = (Raise RuntimeError, w)).
Proof.
  intros Hs Hi m e.
  rewrite print_2d_run, get_2d_matrix_run, calc_trace_run.
  unfold value_of. rewrite Hs, torch_select_in_range by done.
  rewrite reshape_square_cases. fold m. fold e. split; intros Hn.
  - apply Nat.eqb_eq in Hn. rewrite Hn. done.
  - apply Nat.eqb_neq in Hn. rewrite Hn. done.
Qed.

End IndexedViews.

Section BatchedViews.
Context {SC : Scalar}.

Lemma reshape_batch_square_cases {A} (s : list nat) (d : list A) (b n : nat) :
  torch_reshape (mkTensor s d) (py_shape [b; 2 ^ n; 2 ^ n])
  = if numel s =? b * (2 ^ n * 2 ^ n) then Ok (mkTensor [b; 2 ^ n; 2 ^ n] d)
    else Raise RuntimeError.
Proof.
  unfold torch_reshape. rewrite infer_size_py_shape. cbn [shape data].
  rewrite numel_batch_square.
  by destruct (numel s =? b * (2 ^ n * 2 ^ n)).
Qed.

Lemma length_mat_diag (m : nat) (d : list complex) : length (mat_diag m m d) = m.
Proof. unfold mat_diag. by rewrite length_fmap, length_seq, Nat.min_id. Qed.

(** Row [i] of the diagonals of a batch is the diagonal of element [i]. *)
Lemma row_diagonals (b m i : nat) (d : list complex) :
  i < b →
  row m i (mjoin (mat_diag m m <$> chunks b (m * m) d)) = mat_diag m m (row (m * m) i d).
Proof.
  intros Hi. apply row_join.
  - apply Forall_fmap, Forall_forall. intros x _. apply length_mat_diag.
  - by rewrite list_lookup_fmap, lookup_chunks.
Qed.

Lemma fmap_row {A B} (f : A → B) (m i : nat) (d : list A) :
  row m i (f <$> d) = f <$> row m i d.
Proof. unfold row. by rewrite fmap_take, fmap_drop. Qed.

Lemma batched_views_need_entry_count (w : World) :
  let m := 2 ^ n_wires (self w) in
  let d := load (store w) (storage (densities (self w))) in
  (ref_shape (densities (self w)) = [] →
     get_densities_2d w = (Raise IndexError, w) ∧ get_probs_1d w = (Raise IndexError, w))
  ∧ (∀ b rest, ref_shape (densities (self w)) = b :: rest →
       (b * numel rest = b * (m * m) →
          get_densities_2d w = (Ok (mkTensor [b; m; m] d), w)
          ∧ get_probs_1d w
            = (Ok (mkTensor [b; m] (cabs <$> mjoin (mat_diag m m <$> chunks b (m * m) d))), w))
       ∧ (b * numel rest ≠ b * (m * m) →
          get_densities_2d w = (Raise RuntimeError, w)
          ∧ get_probs_1d w = (Raise RuntimeError, w))).
Proof.
  intros m d. rewrite get_densities_2d_run, get_probs_1d_run. cbv zeta.
  unfold value_of. split.
  - intros ->. done.
  - intros b rest ->. cbn [shape0 shape]. rewrite reshape_batch_square_cases.
    fold m. fold d. cbn [numel foldr]. fold (numel rest). split; intros Hn.
    + apply Nat.eqb_eq in Hn. rewrite Hn. by rewrite torch_diagonal_batch.
    + apply Nat.eqb_neq in Hn. rewrite Hn. done.
Qed.

(** X5.  The views agree with each other: element [i] of [get_densities_2d] is
    the matrix [get_2d_matrix i], row [i] of [get_probs_1d] is the modulus
    of its diagonal, and [calc_trace i] is the sum of its diagonal. *)
Theorem X5_batched_views_agree_with_indexed (w : World) (b i : nat) (rest : list nat) :
  ref_shape (densities (self w)) = b :: rest →
  numel rest = 2 ^ n_wires (self w) * 2 ^ n_wires (self w) →
  i < b →
  let m := 2 ^ n_wires (self w) in
  ∃ (all2d one2d : Tensor complex) (probs : Tensor real) (tr : complex),
    get_densities_2d w = (Ok all2d, w)
    ∧ get_2d_matrix (Z.of_nat i) w = (Ok one2d, w)
    ∧ get_probs_1d w = (Ok probs, w)
    ∧ calc_trace (Z.of_nat i) w = (Ok tr, w)
    ∧ row (m * m) i (data all2d) = data one2d
    ∧ row m i (data probs) = cabs <$> mat_diag m m (data one2d)
    ∧ tr = csum (mat_diag m m (data one2d)).
Proof.
  intros Hs Hn Hi m.
  destruct (batched_views_need_entry_count w) as [_ Hb].
  destruct (Hb b rest Hs) as [(H2d & Hp) _]; [by rewrite Hn|].
  rewrite H2d, Hp, get_2d_matrix_run, calc_trace_run.
  unfold value_of. rewrite Hs, torch_select_nonneg by lia.
  rewrite reshape_square_cases, Hn, Nat.eqb_refl, Nat2Z.id.
  eexists _, _, _, _. repeat split; cbn [data]; fold m.
  by rewrite fmap_row, row_diagonals.
Qed.

End BatchedViews.

Section LiftCases.
Context {SC : Scalar} {ST : Strides}.

Lemma length_mat_mul (n m p : nat) (a c : list complex) :
  length (mat_mul n m p a c) = n * p.
Proof. unfold mat_mul. apply length_join_rows. Qed.

(** The product assigned by a lift always has [b * m * m] entries. *)
Lemma length_lifted (m b : nat) (d : list complex) : length (lifted m b d) = b * (m * m).
Proof.
  unfold lifted. rewrite length_join. 
  rewrite (sum_list_fmap_same (m * m)).
  - rewrite length_zip_with, !length_chunks. lia.
  - apply Forall_forall. intros x Hx.
    apply list_elem_of_lookup in Hx as [i Hx].
    apply lookup_zip_with_Some in Hx as (a & c & -> & _ & _).
    apply length_mat_mul.
Qed.

(** All the ways [clone_from_states] can go, for an input of rank at least one. *)
Lemma clone_from_states_cases (src : TensorRef) (w : World) (b : nat) (dims : list nat) :
  ref_shape src = b :: dims →
  let m := 2 ^ n_wires (self w) in
  let N := b * numel dims in
  let st' := store w ++ [lifted m (N / m) (load (store w) (storage src))] in
  clone_from_states src w
  = if negb (2 * (Z.of_nat (length (ref_shape src)) - 1)
             =? Z.of_nat (length (ref_shape (densities (self w)))) - 1)%Z
    then (Raise AssertionError, w)
    else if negb (N mod m =? 0) then (Raise RuntimeError, w)
    else if negb (view_ok (ref_shape src) (strides_of src)
                    [numel (ref_shape src) / m; m; 1])
    then (Raise RuntimeError, w)
    else if N / m * (m * m) =? b * (m * m)
    then (Ok tt,
          mkWorld st'
            (with_densities
               (mkRef (length (store w)) (b :: replicate (2 * n_wires (self w)) 2)) (self w))
            (stdout w))
    else (Raise RuntimeError,
          mkWorld st' (with_densities (mkRef (length (store w)) [N / m; m; m]) (self w))
            (stdout w)).
Proof.
  intros Hs m N st'. destruct w as [st d out]. cbn [store self stdout] in *.
  unfold clone_from_states, mbind, Exec_bind, exec_bind, attr, on_store, deref, lift,
    set_self, alloc, py_assert, exec_ret.
  cbn [store self stdout].
  destruct (2 * (Z.of_nat (length (ref_shape src)) - 1)
            =? Z.of_nat (length (ref_shape (densities d))) - 1)%Z;
    cbn [negb]; [|reflexivity].
  unfold value_of. cbn [store self stdout]. rewrite Hs. cbn [shape0 shape].
  unfold torch_view. cbn [shape data]. rewrite infer_size_leading, numel_column.
  change (numel (b :: dims)) with N. fold m.
  pose proof (pow2_pos (n_wires d)) as Hpos. fold m in Hpos.
  destruct (Nat.ltb_spec 0 m) as [_|?]; [|lia]. cbn [andb].
  destruct (N mod m =? 0); cbn [negb]; [|reflexivity].
  destruct (view_ok (b :: dims) (strides_of src) [N / m; m; 1]); cbn [negb]; [|reflexivity].
  unfold torch_conj. cbn [shape data torch_transpose torch_bmm].
  rewrite Nat.eqb_refl. cbn [andb Nat.eqb shape data].
  unfold reshape_ref. cbn [densities with_densities ref_shape storage].
  rewrite infer_size_py_shape, numel_layout, numel_batch_square.
  fold m. fold (lifted m (N / m) (load st (storage src))).
  by destruct (N / m * (m * m) =? b * (m * m)).
Qed.

End LiftCases.

Section LiftOutcomes.
Context {SC : Scalar} {ST : Strides}.

Lemma lifted_empty (m : nat) (d : list complex) : lifted m 0 d = [].
Proof. done. Qed.

Lemma lift_wrong_size_raises (src : TensorRef) (w : World) (b : nat) (dims : list nat) :
  ref_shape src = b :: dims →
  (2 * (Z.of_nat (length (ref_shape src)) - 1)
   = Z.of_nat (length (ref_shape (densities (self w)))) - 1)%Z →
  1 ≤ b →
  numel dims ≠ 2 ^ n_wires (self w) →
  let m := 2 ^ n_wires (self w) in
  let N := b * numel dims in
  fst (clone_from_states src w) = Raise RuntimeError
  ∧ (N mod m ≠ 0 → snd (clone_from_states src w) = w)
  ∧ (N mod m = 0 → viewable src m →
     snd (clone_from_states src w)
     = mkWorld (store w ++ [lifted m (N / m) (load (store w) (storage src))])
               (with_densities (mkRef (length (store w)) [N / m; m; m]) (self w))
               (stdout w))
  ∧ (N mod m = 0 → ¬ viewable src m → snd (clone_from_states src w) = w).
Proof.
  intros Hs Hrank Hb Hdims m N.
  rewrite (clone_from_states_cases src w b dims Hs). fold m. fold N.
  apply Z.eqb_eq in Hrank. rewrite Hrank. cbn [negb].
  pose proof (pow2_pos (n_wires (self w))) as Hpos. fold m in Hpos.
  destruct (Nat.eqb_spec (N mod m) 0) as [Hmod|Hmod]; cbn [negb];
    [|cbn [fst snd]; by repeat split].
  unfold viewable. fold m.
  destruct (view_ok (ref_shape src) (strides_of src) [numel (ref_shape src) / m; m; 1]);
    cbn [negb]; [|cbn [fst snd]; by repeat split].
  assert (N / m * (m * m) ≠ b * (m * m)) as Hne.
  { apply Nat.Div0.div_exact in Hmod. intros Heq.
    assert (N * m = b * m * m) as Hnm by (rewrite Hmod at 1; lia).
    unfold N in Hnm. apply Hdims. fold m. nia. }
  apply Nat.eqb_neq in Hne. rewrite Hne. cbn [fst snd].
  split; [done|]. split; [done|]. split; [done|]. intros _ Hv. by destruct Hv.
Qed.

(** X8.  An empty state batch (batch size 0) that passes the rank assertion is
    accepted whatever its other axes: the buffer becomes an empty batch in
    the per-qubit layout, [get_probs_1d] returns an empty [[0, 2^n]] tensor
    and [calc_trace] raises [IndexError] at every index. *)
Theorem X8_lift_of_empty_batch (src : TensorRef) (w : World) (dims : list nat) :
  ref_shape src = 0 :: dims →
  (2 * (Z.of_nat (length (ref_shape src)) - 1)
   = Z.of_nat (length (ref_shape (densities (self w)))) - 1)%Z →
  let n := n_wires (self w) in
  ∃ w', clone_from_states src w = (Ok tt, w')
    ∧ value_of (store w') (densities (self w')) = mkTensor (0 :: replicate (2 * n) 2) []
    ∧ get_probs_1d w' = (Ok (mkTensor [0; 2 ^ n] []), w')
    ∧ ∀ i, calc_trace i w' = (Raise IndexError, w').
Proof.
  intros Hs Hrank n.
  rewrite (clone_from_states_cases src w 0 dims Hs).
  apply Z.eqb_eq in Hrank. rewrite Hrank. cbn [negb].
  pose proof (pow2_pos n) as Hpos. fold n.
  rewrite (view_ok_empty (ref_shape src)) by (by rewrite Hs).
  rewrite Nat.mul_0_l, Nat.Div0.mod_0_l, Nat.Div0.div_0_l. cbn [negb Nat.eqb Nat.mul].
  rewrite lifted_empty.
  eexists. split; [reflexivity|].
  match goal with |- value_of (store ?w0) _ = _ ∧ _ => set (w' := w0) end.
  assert (value_of (store w') (densities (self w')) = mkTensor (0 :: replicate (2 * n) 2) [])
    as Hv.
  { unfold w', value_of. cbn [store self densities with_densities storage ref_shape].
    by rewrite load_new. }
  split; [done|]. split.
  - destruct (batched_views_need_entry_count w') as [_ Hb].
    destruct (Hb 0 (replicate (2 * n) 2)) as [(_ & Hp) _]; [done|done|].
    rewrite Hp. done.
  - intros i. destruct (views_index_out_of_range w' 0 (replicate (2 * n) 2) i)
      as (_ & Ht & _); [done|lia|done].
Qed.

Lemma lift_accepts_layout_iff_buffer_rank (src : TensorRef) (w : World) (b : nat) :
  ref_shape src = b :: replicate (n_wires (self w)) 2 →
  let n := n_wires (self w) in
  (fst (clone_from_states src w) = Ok tt
   ↔ length (ref_shape (densities (self w))) = 2 * n + 1 ∧ viewable src (2 ^ n))
  ∧ (length (ref_shape (densities (self w))) ≠ 2 * n + 1 →
     clone_from_states src w = (Raise AssertionError, w))
  ∧ (length (ref_shape (densities (self w))) = 2 * n + 1 → ¬ viewable src (2 ^ n) →
     clone_from_states src w = (Raise RuntimeError, w)).
Proof.
  intros Hs n. unfold viewable.
  rewrite (clone_from_states_cases src w b _ Hs). fold n.
  set (v := view_ok (ref_shape src) (strides_of src) [numel (ref_shape src) / 2 ^ n; 2 ^ n; 1]).
  rewrite Hs. cbn [length]. rewrite length_replicate, numel_replicate. fold n.
  pose proof (pow2_pos n) as Hpos.
  rewrite Nat.Div0.mod_mul, Nat.div_mul, !Nat.eqb_refl by lia. cbn [negb].
  destruct (Z.eqb_spec (2 * (Z.of_nat (S n) - 1))
              (Z.of_nat (length (ref_shape (densities (self w)))) - 1)) as [He|He];
    cbn [negb fst].
  - destruct v; cbn [negb fst].
    + split; [split; [intros _; split; [lia|done]|done]|]. split; [lia|done].
    + split; [split; [done|by intros [_ ?]]|]. split; [lia|done].
  - split; [split; [done|lia]|]. split; [done|lia].
Qed.

(** X14.  For a state batch that passes the rank assertion, holds
    [2^n_wires] amplitudes per state and whose strides allow the view
    [(-1, 2^n_wires, 1)], [clone_from_states] succeeds and puts the buffer
    into a new storage: it aliases neither the input states nor any tensor
    that existed before, so later writes to those do not change the
    buffer. *)
Theorem X14_lift_copies_into_fresh_storage (src : TensorRef) (w : World) (b : nat)
    (dims : list nat) :
  ref_shape src = b :: dims →
  numel dims = 2 ^ n_wires (self w) →
  viewable src (2 ^ n_wires (self w)) →
  (2 * (Z.of_nat (length (ref_shape src)) - 1)
   = Z.of_nat (length (ref_shape (densities (self w)))) - 1)%Z →
  storage src < length (store w) →
  ∃ w', clone_from_states src w = (Ok tt, w')
    ∧ storage (densities (self w')) = length (store w)
    ∧ storage (densities (self w')) ≠ storage src
    ∧ ∀ a x, a < length (store w) →
        value_of (overwrite a x (store w')) (densities (self w'))
        = value_of (store w') (densities (self w')).
Proof.
  intros Hs Hdims Hview Hrank Hsrc.
  rewrite (clone_from_states_run src w b _ dims eq_refl Hs Hdims Hview Hrank).
  eexists. split; [reflexivity|].
  cbn [store self densities with_densities storage].
  split; [done|]. split; [lia|]. intros a x Ha.
  unfold value_of, overwrite, load. cbn [storage ref_shape]. f_equal.
  by rewrite list_lookup_insert_ne by lia.
Qed.

End LiftOutcomes.

Section LiftedMatrices.
Context {SC : Scalar} {ST : Strides}.
Add Ring real_ring_lifted : real_ring.

Lemma cmul_conj_swap (a c : complex) : cmul a (cconj c) = cconj (cmul c (cconj a)).
Proof.
  destruct a as [a1 a2], c as [c1 c2]. unfold cmul, cconj. simpl. f_equal; ring.
Qed.

Lemma entry_outer_sized (m : nat) (psi : list complex) (j k : nat) :
  length psi = m → j < m → k < m →
  entry m (outer psi) j k = cmul (nth j psi c0) (cconj (nth k psi c0)).
Proof. intros <- Hj Hk. by apply entry_outer. Qed.

(** X9.  For every state batch that passes the rank assertion, holds
    [2^n_wires] amplitudes per state (in particular the per-qubit layout
    [[b] + [2] * n_wires]) and whose strides allow the view
    [(-1, 2^n_wires, 1)], [clone_from_states] succeeds and element [i] of
    the buffer is the outer product of state [i] with its conjugate: entry
    [(j, k)] is [psi[j] * conj(psi[k])], and the matrix is Hermitian. *)
Theorem X9_lift_gives_hermitian_outer_products (w : World) (src : TensorRef) (n b : nat)
    (dims : list nat) :
  n_wires (self w) = n →
  ref_shape src = b :: dims →
  numel dims = 2 ^ n →
  viewable src (2 ^ n) →
  length (load (store w) (storage src)) = b * 2 ^ n →
  (2 * (Z.of_nat (length (ref_shape src)) - 1)
   = Z.of_nat (length (ref_shape (densities (self w)))) - 1)%Z →
  ∃ w', clone_from_states src w = (Ok tt, w')
    ∧ ref_shape (densities (self w')) = b :: replicate (2 * n) 2
    ∧ ∀ i, i < b → ∃ m,
        get_2d_matrix (Z.of_nat i) w' = (Ok m, w')
        ∧ shape m = [2 ^ n; 2 ^ n]
        ∧ length (data m) = 2 ^ n * 2 ^ n
        ∧ ∀ j k, j < 2 ^ n → k < 2 ^ n →
            entry (2 ^ n) (data m) j k
            = cmul (nth j (row (2 ^ n) i (load (store w) (storage src))) c0)
                   (cconj (nth k (row (2 ^ n) i (load (store w) (storage src))) c0))
            ∧ entry (2 ^ n) (data m) j k = cconj (entry (2 ^ n) (data m) k j).
Proof.
  intros Hn Hs Hdims Hview Hlen Hrank.
  destruct (clone_from_states_lifts src w b n dims) as (w' & Hrun & Hshape & Hl); try done.
  exists w'. split; [done|]. split; [done|].
  intros i Hi. eexists. split; [by apply (matrix_after_lift w' n b)|].
  cbn [shape data]. split; [done|].
  pose proof (length_row (2 ^ n) b i _ Hlen Hi) as Hr.
  split; [by rewrite length_outer, Hr|].
  intros j k Hj Hk. rewrite !(entry_outer_sized (2 ^ n)) by done.
  split; [done|]. apply cmul_conj_swap.
Qed.

Lemma lift_trace_and_probabilities (w : World) (src : TensorRef) (n b : nat)
    (dims : list nat) :
  n_wires (self w) = n →
  ref_shape src = b :: dims →
  numel dims = 2 ^ n →
  viewable src (2 ^ n) →
  length (load (store w) (storage src)) = b * 2 ^ n →
  (2 * (Z.of_nat (length (ref_shape src)) - 1)
   = Z.of_nat (length (ref_shape (densities (self w)))) - 1)%Z →
  ∃ w' (probs : Tensor real),
    clone_from_states src w = (Ok tt, w')
    ∧ get_probs_1d w' = (Ok probs, w')
    ∧ shape probs = [b; 2 ^ n]
    ∧ ∀ i, i < b →
        let psi := row (2 ^ n) i (load (store w) (storage src)) in
        calc_trace (Z.of_nat i) w' = (Ok (rsum (cnormsq <$> psi), r0), w')
        ∧ row (2 ^ n) i (data probs) = (λ z, cabs (cnormsq z, r0)) <$> psi.
Proof.
  intros Hn Hs Hdims Hview Hlen Hrank.
  destruct (clone_from_states_lifts src w b n dims) as (w' & Hrun & Hshape & Hl); try done.
  exists w'. eexists. split; [done|].
  split; [by apply (probs_after_lift w' n b)|].
  cbn [shape data]. split; [done|]. intros i Hi.
  set (psi := row (2 ^ n) i (load (store w) (storage src))).
  split; [by apply (trace_after_lift w' n b)|].
  transitivity ((λ z, cabs (cmul z (cconj z))) <$> psi).
  - apply row_join.
    + apply Forall_fmap.
      eapply Forall_impl; [apply (chunks_lengths b (2 ^ n)); lia|].
      intros x Hx. simpl. by rewrite length_fmap.
    + by rewrite list_lookup_fmap, lookup_chunks.
  - apply list_fmap_ext. intros _ z _. by rewrite cmul_conj.
Qed.

End LiftedMatrices.

Section CloneThenView.
Context {SC : Scalar}.

Lemma value_after_clone_densities (src : TensorRef) (w : World) :
  let w' := snd (clone_densities src w) in
  n_wires (self w') = n_wires (self w)
  ∧ ref_shape (densities (self w')) = ref_shape src
  ∧ load (store w') (storage (densities (self w'))) = load (store w) (storage src).
Proof.
  rewrite clone_densities_run. cbn [snd store self densities with_densities storage
    ref_shape]. by rewrite load_new.
Qed.

(** X15.  Round trip through [clone_densities]: for a source of shape
    [b :: rest] with [4^n_wires] entries per element, [get_densities_2d]
    then returns the entries of the source as [b] matrices and
    [get_2d_matrix i] returns element [i] of the source. *)
Theorem X15_clone_densities_then_views (src : TensorRef) (w : World) (b : nat)
    (rest : list nat) :
  ref_shape src = b :: rest →
  numel rest = 2 ^ n_wires (self w) * 2 ^ n_wires (self w) →
  let m := 2 ^ n_wires (self w) in
  let d := load (store w) (storage src) in
  ∃ w', clone_densities src w = (Ok tt, w')
    ∧ get_densities_2d w' = (Ok (mkTensor [b; m; m] d), w')
    ∧ ∀ i, (- Z.of_nat b ≤ i < Z.of_nat b)%Z →
        get_2d_matrix i w' = (Ok (mkTensor [m; m] (row (m * m) (py_index b i) d)), w').
Proof.
  intros Hs Hn m d.
  destruct (value_after_clone_densities src w) as (Hw & Hshape & Hload).
  exists (snd (clone_densities src w)). split; [by rewrite clone_densities_run|].
  set (w' := snd (clone_densities src w)) in *. rewrite Hs in Hshape. split.
  - destruct (batched_views_need_entry_count w') as [_ Hb].
    destruct (Hb b rest Hshape) as [(H2d & _) _]; [by rewrite Hw, Hn|].
    by rewrite H2d, Hw, Hload.
  - intros i Hi.
    destruct (indexed_views_need_entry_count w' b rest i Hshape Hi) as [Hok _].
    destruct Hok as (Hg & _); [by rewrite Hw|].
    by rewrite Hg, Hw, Hload, Hn.
Qed.

(** X16.  [clone_densities] accepts a source of the wrong size and the failure
    shows only in the views: after a source without axes they raise
    [IndexError]; after a source whose elements have not [4^n_wires]
    entries the indexed views raise [RuntimeError] at every valid index,
    and so do the batched views when the batch is not empty. *)
Theorem X16_clone_densities_wrong_size_fails_later (src : TensorRef) (w : World) :
  let m := 2 ^ n_wires (self w) in
  ∃ w', clone_densities src w = (Ok tt, w')
    ∧ (ref_shape src = [] →
       get_probs_1d w' = (Raise IndexError, w')
       ∧ get_densities_2d w' = (Raise IndexError, w')
       ∧ ∀ i, get_2d_matrix i w' = (Raise IndexError, w')
              ∧ calc_trace i w' = (Raise IndexError, w'))
    ∧ (∀ b rest, ref_shape src = b :: rest → numel rest ≠ m * m →
       (1 ≤ b →
        get_probs_1d w' = (Raise RuntimeError, w')
        ∧ get_densities_2d w' = (Raise RuntimeError, w'))
       ∧ ∀ i, (- Z.of_nat b ≤ i < Z.of_nat b)%Z →
           get_2d_matrix i w' = (Raise RuntimeError, w')
           ∧ calc_trace i w' = (Raise RuntimeError, w')).
Proof.
  intros m.
  destruct (value_after_clone_densities src w) as (Hw & Hshape & Hload).
  exists (snd (clone_densities src w)). split; [by rewrite clone_densities_run|].
  set (w' := snd (clone_densities src w)) in *. split.
  - intros Hs. rewrite Hs in Hshape.
    destruct (batched_views_need_entry_count w') as [H0 _].
    destruct (H0 Hshape) as (H2d & Hp). split; [done|]. split; [done|].
    intros i. rewrite get_2d_matrix_run, calc_trace_run. unfold value_of.
    by rewrite Hshape.
  - intros b rest Hs Hn. rewrite Hs in Hshape. split.
    + intros Hb. destruct (batched_views_need_entry_count w') as [_ Hbv].
      destruct (Hbv b rest Hshape) as [_ (H2d & Hp)]; [rewrite Hw; fold m; nia|].
      done.
    + intros i Hi.
      destruct (indexed_views_need_entry_count w' b rest i Hshape Hi) as [_ Hbad].
      destruct Hbad as (Hg & Ht & _); [by rewrite Hw|]. done.
Qed.

End CloneThenView.

Section Construction.
Context {SC : Scalar}.

(** X17.  The constructor adds two storages and touches no existing one.  The
    snapshot holds the ground state in shape [[2] * (2 * n_wires)];
    [_densities] and [densities] are the same tensor; snapshot and batch
    buffer have different storages, so that a write into one does not show
    in the other; [get_prob_1d] is one at index 0 and zero elsewhere. *)
Theorem X17_constructor_buffers (n b : nat) (name dev : string) (rec : bool)
    (nm : NoiseModel) (st : Store) :
  ∃ d st',
    NoiseDevice_init n name b dev rec nm st = (Ok d, st')
    ∧ length st' = length st + 2
    ∧ (∀ a, a < length st → load st' a = load st a)
    ∧ value_of st' (density d) = mkTensor (replicate (2 * n) 2) (ground (2 ^ (2 * n)))
    ∧ _densities d = densities d
    ∧ storage (density d) ≠ storage (densities d)
    ∧ (∀ x, value_of (overwrite (storage (densities d)) x st') (density d)
            = value_of st' (density d))
    ∧ (∀ x, value_of (overwrite (storage (density d)) x st') (densities d)
            = value_of st' (densities d))
    ∧ ∀ out, get_prob_1d (mkWorld st' d out)
             = (Ok (mkTensor [2 ^ n] (r1 :: replicate (2 ^ n - 1) r0)), mkWorld st' d out).
Proof.
  eexists _, _. split; [apply NoiseDevice_init_run|].
  cbn [density densities _densities storage].
  assert (∀ s, value_of (st ++ [ground (2 ^ (2 * n));
                                mjoin (replicate b (ground (2 ^ (2 * n))))])
                 (mkRef (length st) s)
               = mkTensor s (ground (2 ^ (2 * n)))) as Hsnap.
  { intros s. unfold value_of, load. cbn [storage ref_shape].
    by rewrite list_lookup_middle. }
  split; [rewrite length_app; simpl; lia|].
  split; [intros a Ha; by apply load_app_l|].
  split; [apply Hsnap|]. split; [done|]. split; [lia|]. split; [|split].
  - intros x. unfold value_of, overwrite, load. cbn [storage ref_shape].
    by rewrite list_lookup_insert_ne by lia.
  - intros x. unfold value_of, overwrite, load. cbn [storage ref_shape].
    by rewrite list_lookup_insert_ne by lia.
  - intros out. apply prob_ground_snapshot; [done|]. apply Hsnap.
Qed.

(** X18.  A device constructed with [bsz = 0] has an empty batch buffer:
    [get_probs_1d] and [get_densities_2d] return empty tensors of shapes
    [[0, 2^n]] and [[0, 2^n, 2^n]], and [get_2d_matrix] and [calc_trace]
    raise [IndexError] at every index. *)
Theorem X18_empty_batch_device (n : nat) (name dev : string) (rec : bool)
    (nm : NoiseModel) (st : Store) (out : list (Tensor complex)) :
  ∃ d st',
    NoiseDevice_init n name 0 dev rec nm st = (Ok d, st')
    ∧ value_of st' (densities d) = mkTensor (0 :: replicate (2 * n) 2) []
    ∧ get_probs_1d (mkWorld st' d out) = (Ok (mkTensor [0; 2 ^ n] []), mkWorld st' d out)
    ∧ get_densities_2d (mkWorld st' d out)
      = (Ok (mkTensor [0; 2 ^ n; 2 ^ n] []), mkWorld st' d out)
    ∧ ∀ i, get_2d_matrix i (mkWorld st' d out) = (Raise IndexError, mkWorld st' d out)
           ∧ calc_trace i (mkWorld st' d out) = (Raise IndexError, mkWorld st' d out).
Proof.
  eexists _, _. split; [apply NoiseDevice_init_run|].
  match goal with |- value_of ?s ?r = _ ∧ _ => set (st' := s); set (dd := r) end.
  match goal with |- context [mkWorld st' ?d0 out] => set (w' := mkWorld st' d0 out) end.
  assert (load (store w') (storage (densities (self w'))) = []) as Hload.
  { unfold w', st'. cbn [store self densities storage]. by rewrite load_batch. }
  assert (ref_shape (densities (self w')) = 0 :: replicate (2 * n) 2) as Hshape by done.
  split; [unfold value_of; by rewrite <- Hload|].
  destruct (batched_views_need_entry_count w') as [_ Hb].
  destruct (Hb 0 _ Hshape) as [(H2d & Hp) _]; [done|].
  rewrite Hp, H2d, Hload. split; [done|]. split; [done|].
  intros i. destruct (views_index_out_of_range w' 0 _ i Hshape) as (Hg & Ht & _); [lia|].
  done.
Qed.

End Construction.

Section SessionInvariants.
Context {SC : Scalar} {ST : Strides}.

Lemma evolves_refl (w : World) : evolves w w.
Proof.
  unfold evolves. repeat split; try done; [by left|exists []; by rewrite app_nil_r].
Qed.

Lemma evolves_trans (w1 w2 w3 : World) : evolves w1 w2 → evolves w2 w3 → evolves w1 w3.
Proof.
  unfold evolves.
  intros (A1 & A2 & A3 & A4 & A5 & A6 & A7 & A8 & A9 & Aop & [p1 Ap] & Alen & Aload)
         (B1 & B2 & B3 & B4 & B5 & B6 & B7 & B8 & B9 & Bop & [p2 Bp] & Blen & Bload).
  repeat split; try congruence; try lia.
  - destruct Bop as [Bop|Bop]; [|by right]. rewrite Bop. done.
  - exists (p1 ++ p2). by rewrite Bp, Ap, app_assoc.
  - intros a Ha. rewrite Bload by lia. by apply Aload.
Qed.

Lemma same_but_densities_evolves (w w' : World) :
  same_but_densities w w' → length (store w) ≤ length (store w') → evolves w w'.
Proof.
  unfold same_but_densities, evolves.
  intros (A1 & A2 & A3 & A4 & A5 & A6 & A7 & A8 & A9 & A10 & A11 & A12) Hlen.
  repeat split; try done; [by left|exists []; by rewrite app_nil_r].
Qed.

Lemma clone_from_states_store_grows (src : TensorRef) (w : World) :
  length (store w) ≤ length (store (snd (clone_from_states src w))).
Proof.
  destruct (ref_shape src) as [|b dims] eqn:Hs.
  - rewrite clone_from_states_rank_mismatch; [done|]. rewrite Hs. simpl. lia.
  - rewrite (clone_from_states_cases src w b dims Hs).
    repeat match goal with |- context [if ?c then _ else _] => destruct c end;
      cbn [snd store]; rewrite ?length_app; lia.
Qed.

Lemma run_call_evolves (w : World) (c : Call) : evolves w (run_call w c).
Proof.
  destruct c; cbn [run_call];
    rewrite ?get_2d_matrix_run, ?get_densities_2d_run, ?get_density_2d_run,
      ?calc_trace_run, ?get_probs_1d_run, ?get_prob_1d_run;
    try apply evolves_refl.
  - unfold evolves. cbn. repeat split; try done; [by right|exists []; by rewrite app_nil_r].
  - rewrite print_2d_run. destruct (fst (get_2d_matrix index w)); cbn [snd];
      [|apply evolves_refl].
    unfold evolves. cbn. repeat split; try done; [by left|by eexists].
  - apply same_but_densities_evolves; [apply clone_densities_frame|].
    rewrite clone_densities_run. cbn [snd store]. rewrite length_app. lia.
  - apply same_but_densities_evolves; [apply clone_from_states_frame|].
    apply clone_from_states_store_grows.
Qed.

Lemma session_evolves (cs : list Call) (w : World) : evolves w (run_calls cs w).
Proof.
  revert w. induction cs as [|c cs IH]; intros w; [apply evolves_refl|].
  cbn [run_calls foldl]. eapply evolves_trans; [apply run_call_evolves|apply IH].
Qed.

Lemma backed_evolves (w w' : World) (r : TensorRef) :
  evolves w w' → backed (store w) r → backed (store w') r.
Proof.
  unfold backed. intros Hev [Hlt Hlen].
  destruct Hev as (_ & _ & _ & _ & _ & _ & _ & _ & _ & _ & _ & Hgrow & Hload).
  split; [lia|]. by rewrite Hload.
Qed.

Lemma run_call_backed (w : World) (c : Call) :
  backed (store w) (densities (self w)) →
  (∀ t, call_argument c = Some t → backed (store w) t) →
  backed (store (run_call w c)) (densities (self (run_call w c))).
Proof.
  intros Hb Harg.
  destruct c; cbn [run_call];
    rewrite ?get_2d_matrix_run, ?get_densities_2d_run, ?get_density_2d_run,
      ?calc_trace_run, ?get_probs_1d_run, ?get_prob_1d_run;
    try done.
  - rewrite print_2d_run. by destruct (fst (get_2d_matrix index w)).
  - destruct (Harg existing_densities eq_refl) as [Hlt Hlen].
    rewrite clone_densities_run. unfold backed.
    cbn [snd store self densities with_densities storage ref_shape].
    rewrite load_new, length_app. simpl. split; [lia|done].
  - destruct (ref_shape existing_states) as [|b dims] eqn:Hs.
    + rewrite clone_from_states_rank_mismatch; [done|]. rewrite Hs. simpl. lia.
    + rewrite (clone_from_states_cases existing_states w b dims Hs).
      repeat match goal with |- context [if ?c then _ else _] => destruct c eqn:? end;
        cbn [snd]; try done; unfold backed;
        cbn [store self densities with_densities storage ref_shape];
        rewrite load_new, length_app, length_lifted; simpl length;
        (split; [lia|]).
      * rewrite numel_layout. by apply Nat.eqb_eq.
      * by rewrite numel_batch_square.
Qed.

(** X20.  Invariant of the batch buffer: if its storage holds as many entries
    as its shape asks for, and so do the tensors handed to the clones, then
    this is still so after any sequence of calls, failed lifts included. *)
Theorem X20_session_keeps_buffer_backed (cs : list Call) (w : World) :
  backed (store w) (densities (self w)) →
  (∀ c t, c ∈ cs → call_argument c = Some t → backed (store w) t) →
  backed (store (run_calls cs w)) (densities (self (run_calls cs w))).
Proof.
  revert w. induction cs as [|c cs IH]; intros w Hb Hargs; [done|].
  cbn [run_calls foldl]. apply IH.
  - apply run_call_backed; [done|]. intros t Ht. apply (Hargs c t); [left|done].
  - intros c' t Hc' Ht. apply (backed_evolves w); [apply run_call_evolves|].
    apply (Hargs c' t); [by right|done].
Qed.

End SessionInvariants.

Section SnapshotForever.
Context {SC : Scalar} {ST : Strides}.

(** X21.  On a constructed device, after any sequence of calls, the snapshot
    views still show the ground state ([get_prob_1d] is one at index 0,
    [get_density_2d] is the ground-state matrix), and [n_wires], [bsz] and
    the noise model are those given to the constructor. *)
Theorem X21_snapshot_views_never_change (n b : nat) (name dev : string) (rec : bool)
    (nm : NoiseModel) (st : Store) (cs : list Call) :
  ∃ d st',
    NoiseDevice_init n name b dev rec nm st = (Ok d, st')
    ∧ ∀ (extra : Store) (out : list (Tensor complex)),
        let w := run_calls cs (mkWorld (st' ++ extra) d out) in
        get_prob_1d w = (Ok (mkTensor [2 ^ n] (r1 :: replicate (2 ^ n - 1) r0)), w)
        ∧ get_density_2d w = (Ok (mkTensor [2 ^ n; 2 ^ n] (ground (2 ^ (2 * n)))), w)
        ∧ n_wires (self w) = n
        ∧ bsz (self w) = b
        ∧ _noise_model (self w) = nm.
Proof.
  eexists _, _. split; [apply NoiseDevice_init_run|]. intros extra out.
  match goal with |- let w := run_calls cs ?w0 in _ => set (w0' := w0) end.
  intros w.
  destruct (session_evolves cs w0')
    as (Hn & Hb & Hd & _ & Hnm & _ & _ & _ & _ & _ & _ & _ & Hload).
  fold w in Hn, Hb, Hd, Hnm, Hload.
  assert (value_of (store w) (density (self w))
          = mkTensor (replicate (2 * n) 2) (ground (2 ^ (2 * n)))) as Hv.
  { unfold value_of. rewrite Hd. unfold w0'. cbn [self store density storage ref_shape].
    f_equal. rewrite Hload.
    - unfold w0'. cbn [store]. rewrite load_app_l by (rewrite length_app; simpl; lia).
      unfold load. by rewrite list_lookup_middle.
    - unfold w0'. cbn [store]. rewrite !length_app. simpl. lia. }
  destruct (snapshot_views_ground w n) as (H1 & H2); [by rewrite Hn|done|].
  by rewrite H1, H2, Hn, Hb, Hnm.
Qed.

End SnapshotForever.

Section BasisLift.
Context {SC : Scalar} {ST : Strides}.
Add Ring real_ring_basis : real_ring.

Lemma length_basis_state (m k : nat) : length (basis_state m k) = m.
Proof. unfold basis_state. by rewrite length_insert, length_replicate. Qed.

Lemma foldl_radd_one_hot (a : real) (m k : nat) :
  k < m → foldl radd a (<[k := r1]> (replicate m r0)) = radd a r1.
Proof.
  revert a k. induction m as [|m IH]; intros a k Hk; [lia|].
  destruct k as [|k]; simpl.
  - by rewrite foldl_radd_zeros.
  - rewrite IH by lia. f_equal. ring.
Qed.

Lemma cnormsq_0 : cnormsq c0 = r0.
Proof. unfold cnormsq, c0. simpl. ring. Qed.

Lemma cnormsq_1 : cnormsq c1 = r1.
Proof. unfold cnormsq, c1. simpl. ring. Qed.

Lemma cabs_real_0 : cabs (r0, r0) = r0.
Proof. apply cabs_0. Qed.

Lemma cabs_real_1 : cabs (r1, r0) = r1.
Proof. apply cabs_1. Qed.

(** X11.  Lifting basis states from a batch whose strides allow the view
    [(-1, 2^n_wires, 1)]: if state [i] of the batch is the basis state [k],
    row [i] of [get_probs_1d] is one at index [k] and zero elsewhere, and
    [calc_trace i] is one. *)
Theorem X11_lift_of_basis_states (w : World) (src : TensorRef) (n : nat) (dims ks : list nat) :
  n_wires (self w) = n →
  ref_shape src = length ks :: dims →
  numel dims = 2 ^ n →
  viewable src (2 ^ n) →
  load (store w) (storage src) = mjoin (basis_state (2 ^ n) <$> ks) →
  Forall (λ k, k < 2 ^ n) ks →
  (2 * (Z.of_nat (length (ref_shape src)) - 1)
   = Z.of_nat (length (ref_shape (densities (self w)))) - 1)%Z →
  ∃ w' (probs : Tensor real),
    clone_from_states src w = (Ok tt, w')
    ∧ get_probs_1d w' = (Ok probs, w')
    ∧ ∀ i k, ks !! i = Some k →
        row (2 ^ n) i (data probs) = <[k := r1]> (replicate (2 ^ n) r0)
        ∧ calc_trace (Z.of_nat i) w' = (Ok c1, w').
Proof.
  intros Hn Hs Hdims Hview Hload Hks Hrank.
  assert (Forall (λ y, length y = 2 ^ n) (basis_state (2 ^ n) <$> ks)) as Hall.
  { apply Forall_fmap, Forall_forall. intros k _. apply length_basis_state. }
  assert (length (load (store w) (storage src)) = length ks * 2 ^ n) as Hlen.
  { rewrite Hload, length_join, (sum_list_fmap_same (2 ^ n)) by done.
    by rewrite length_fmap. }
  destruct (lift_trace_and_probabilities w src n (length ks) dims)
    as (w' & probs & Hrun & Hp & _ & Hrows); try done.
  exists w', probs. split; [done|]. split; [done|]. intros i k Hik.
  assert (i < length ks) as Hi by (apply lookup_lt_is_Some; eauto).
  destruct (Hrows i Hi) as [Htr Hrow].
  assert (row (2 ^ n) i (load (store w) (storage src)) = basis_state (2 ^ n) k) as Hpsi.
  { rewrite Hload. apply row_join; [done|]. by rewrite list_lookup_fmap, Hik. }
  rewrite Hpsi in Htr, Hrow.
  assert (k < 2 ^ n) as Hk by (eapply Forall_lookup_1 in Hks; eauto).
  split.
  - rewrite Hrow. unfold basis_state.
    by rewrite list_fmap_insert, fmap_replicate, cnormsq_0, cnormsq_1, cabs_real_0,
      cabs_real_1.
  - rewrite Htr. unfold c1. do 3 f_equal. unfold rsum, basis_state.
    rewrite list_fmap_insert, fmap_replicate, cnormsq_0, cnormsq_1.
    rewrite foldl_radd_one_hot by done. ring.
Qed.

(** X13.  A lift that gets through the view (the strides of the batch allow
    it) and fails in the final reshape leaves a buffer of rank 3.  Unless
    the device has exactly one wire, every later lift of states in the
    per-qubit layout is then rejected by the rank assertion. *)
Theorem X13_failed_lift_blocks_later_lifts (src src2 : TensorRef) (w : World) (b b2 : nat)
    (dims : list nat) :
  ref_shape src = b :: dims →
  (2 * (Z.of_nat (length (ref_shape src)) - 1)
   = Z.of_nat (length (ref_shape (densities (self w)))) - 1)%Z →
  1 ≤ b →
  numel dims ≠ 2 ^ n_wires (self w) →
  (b * numel dims) mod 2 ^ n_wires (self w) = 0 →
  viewable src (2 ^ n_wires (self w)) →
  n_wires (self w) ≠ 1 →
  ref_shape src2 = b2 :: replicate (n_wires (self w)) 2 →
  let w' := snd (clone_from_states src w) in
  fst (clone_from_states src w) = Raise RuntimeError
  ∧ clone_from_states src2 w' = (Raise AssertionError, w').
Proof.
  intros Hs Hrank Hb Hdims Hmod Hview Hn Hs2 w'.
  destruct (lift_wrong_size_raises src w b dims Hs Hrank Hb Hdims)
    as (Hfail & _ & Hw' & _).
  specialize (Hw' Hmod Hview). fold w' in Hw'. split; [done|].
  assert (n_wires (self w') = n_wires (self w)) as Hnw by by rewrite Hw'.
  assert (length (ref_shape (densities (self w'))) = 3) as Hlen by by rewrite Hw'.
  destruct (lift_accepts_layout_iff_buffer_rank src2 w' b2) as (_ & Hrej & _);
    [by rewrite Hnw|].
  apply Hrej. rewrite Hlen, Hnw. lia.
Qed.

End BasisLift.

Section StridedBatches.
Context {SC : Scalar} {ST : Strides}.

(** X22.  A contiguous state batch that passes the rank assertion and holds
    [2^n_wires] amplitudes per state is always lifted, whatever its axes
    are: the view [(-1, 2^n_wires, 1)] of a contiguous tensor never fails
    on the strides.  The buffer gets the per-qubit layout and the batched
    products as its entries. *)
Theorem X22_lift_of_contiguous_batch (w : World) (src : TensorRef) (n b : nat)
    (dims : list nat) :
  n_wires (self w) = n →
  ref_shape src = b :: dims →
  numel dims = 2 ^ n →
  contiguous src →
  (2 * (Z.of_nat (length (ref_shape src)) - 1)
   = Z.of_nat (length (ref_shape (densities (self w)))) - 1)%Z →
  viewable src (2 ^ n)
  ∧ ∃ w', clone_from_states src w = (Ok tt, w')
      ∧ value_of (store w') (densities (self w'))
        = mkTensor (b :: replicate (2 * n) 2)
            (lifted (2 ^ n) b (load (store w) (storage src))).
Proof.
  intros Hn Hs Hdims Hc Hrank.
  pose proof (pow2_pos n) as Hpos.
  assert (viewable src (2 ^ n)) as Hview.
  { apply viewable_contiguous; [done|lia|].
    rewrite Hs. simpl. rewrite Hdims. apply Nat.Div0.mod_mul. }
  split; [done|]. eexists. split.
  { by apply (clone_from_states_run src w b n dims). }
  unfold value_of. cbn [store self densities with_densities storage ref_shape].
  by rewrite load_new.
Qed.

(** X23.  A state batch that passes the rank assertion but whose strides do
    not allow the view [(-1, 2^n_wires, 1)] (a batch with permuted axes,
    say) is rejected by the view with [RuntimeError], whatever its entries
    are, and nothing has been assigned: the world is as before. *)
Theorem X23_lift_of_unviewable_batch (src : TensorRef) (w : World) (b : nat)
    (dims : list nat) :
  ref_shape src = b :: dims →
  (2 * (Z.of_nat (length (ref_shape src)) - 1)
   = Z.of_nat (length (ref_shape (densities (self w)))) - 1)%Z →
  ¬ viewable src (2 ^ n_wires (self w)) →
  clone_from_states src w = (Raise RuntimeError, w).
Proof.
  intros Hs Hrank Hview.
  rewrite (clone_from_states_cases src w b dims Hs).
  apply Z.eqb_eq in Hrank. rewrite Hrank. cbn [negb].
  destruct (b * numel dims mod 2 ^ n_wires (self w) =? 0); cbn [negb]; [|done].
  unfold viewable in Hview. apply not_true_is_false in Hview. by rewrite Hview.
Qed.

End StridedBatches.

(** ** Properties shared by several proofs, as theorems of their own *)

Section SharedProperties.
Context {SC : Scalar} {ST : Strides}.

(** X1.  An index outside [[-b, b)] for a batch buffer of batch size [b] makes
    [get_2d_matrix], [calc_trace] and [print_2d] raise [IndexError]; the
    device is untouched and nothing is printed. *)
Theorem X1_views_index_out_of_range (w : World) (b : nat) (rest : list nat) (i : Z) :
  ref_shape (densities (self w)) = b :: rest →
  (i < - Z.of_nat b ∨ Z.of_nat b ≤ i)%Z →
  get_2d_matrix i w = (Raise IndexError, w)
  ∧ calc_trace i w = (Raise IndexError, w)
  ∧ print_2d i w = (Raise IndexError, w).
Proof. apply views_index_out_of_range. Qed.

(** X3.  For a valid index the indexed views look at the number of entries of
    a batch element only, not at its axes: with [4^n_wires] entries they
    return the element as a [2^n x 2^n] matrix (its trace, its print-out),
    whatever the shape of the buffer; with any other number they raise
    [RuntimeError] and leave the device untouched. *)
Theorem X3_indexed_views_need_entry_count (w : World) (b : nat) (rest : list nat) (i : Z) :
  ref_shape (densities (self w)) = b :: rest →
  (- Z.of_nat b ≤ i < Z.of_nat b)%Z →
  let m := 2 ^ n_wires (self w) in
  let e := row (numel rest) (py_index b i) (load (store w) (storage (densities (self w)))) in
  (numel rest = m * m →
     get_2d_matrix i w = (Ok (mkTensor [m; m] e), w)
     ∧ calc_trace i w = (Ok (csum (mat_diag m m e)), w)
     ∧ print_2d i w = (Ok tt, mkWorld (store w) (self w) (stdout w ++ [mkTensor [m; m] e])))
  ∧ (numel rest ≠ m * m →
     get_2d_matrix i w = (Raise RuntimeError, w)
     ∧ calc_trace i w = (Raise RuntimeError, w)
     ∧ print_2d i w = (Raise RuntimeError, w)).
Proof. apply indexed_views_need_entry_count. Qed.

(** X4.  The batched views [get_densities_2d] and [get_probs_1d] raise
    [IndexError] on a buffer without axes; on a buffer of shape
    [b :: rest] they succeed exactly when [b * numel rest = b * 4^n_wires],
    returning the buffer as [b] matrices and the moduli of their
    diagonals, and raise [RuntimeError] otherwise. *)
Theorem X4_batched_views_need_entry_count (w : World) :
  let m := 2 ^ n_wires (self w) in
  let d := load (store w) (storage (densities (self w))) in
  (ref_shape (densities (self w)) = [] →
     get_densities_2d w = (Raise IndexError, w) ∧ get_probs_1d w = (Raise IndexError, w))
  ∧ (∀ b rest, ref_shape (densities (self w)) = b :: rest →
       (b * numel rest = b * (m * m) →
          get_densities_2d w = (Ok (mkTensor [b; m; m] d), w)
          ∧ get_probs_1d w
            = (Ok (mkTensor [b; m] (cabs <$> mjoin (mat_diag m m <$> chunks b (m * m) d))), w))
       ∧ (b * numel rest ≠ b * (m * m) →
          get_densities_2d w = (Raise RuntimeError, w)
          ∧ get_probs_1d w = (Raise RuntimeError, w))).
Proof. apply batched_views_need_entry_count. Qed.

(** X6.  When the rank assertion of [clone_from_states] fails the call raises
    [AssertionError] and the world is exactly as before. *)
Theorem X6_lift_rank_mismatch (src : TensorRef) (w : World) :
  (2 * (Z.of_nat (length (ref_shape src)) - 1)
   ≠ Z.of_nat (length (ref_shape (densities (self w)))) - 1)%Z →
  clone_from_states src w = (Raise AssertionError, w).
Proof. apply clone_from_states_rank_mismatch. Qed.

(** X7.  A non-empty state batch that passes the rank assertion but has not
    [2^n_wires] amplitudes per state always makes [clone_from_states] raise
    [RuntimeError].  If the total number of amplitudes is no multiple of
    [2^n_wires] the view fails and the world is as before.  If it is a
    multiple and the strides of the batch allow the view, the failure
    comes from the final reshape, after [densities] was assigned the
    product of shape [[N / 2^n, 2^n, 2^n]]; if the strides do not allow
    the view, the view fails and the world is as before. *)
Theorem X7_lift_wrong_size_raises (src : TensorRef) (w : World) (b : nat) (dims : list nat) :
  ref_shape src = b :: dims →
  (2 * (Z.of_nat (length (ref_shape src)) - 1)
   = Z.of_nat (length (ref_shape (densities (self w)))) - 1)%Z →
  1 ≤ b →
  numel dims ≠ 2 ^ n_wires (self w) →
  let m := 2 ^ n_wires (self w) in
  let N := b * numel dims in
  fst (clone_from_states src w) = Raise RuntimeError
  ∧ (N mod m ≠ 0 → snd (clone_from_states src w) = w)
  ∧ (N mod m = 0 → viewable src m →
     snd (clone_from_states src w)
     = mkWorld (store w ++ [lifted m (N / m) (load (store w) (storage src))])
               (with_densities (mkRef (length (store w)) [N / m; m; m]) (self w))
               (stdout w))
  ∧ (N mod m = 0 → ¬ viewable src m → snd (clone_from_states src w) = w).
Proof. apply lift_wrong_size_raises. Qed.

(** X10.  After a lift of states that pass the rank assertion, have
    [2^n_wires] amplitudes each and lie in memory with strides that allow
    the view [(-1, 2^n_wires, 1)], the trace of element [i] is the squared
    norm of state [i] with imaginary part zero, whether the state is
    normalised or not, and entry [k] of row [i] of [get_probs_1d] is the
    modulus of the squared modulus of amplitude [k]. *)
Theorem X10_lift_trace_and_probabilities (w : World) (src : TensorRef) (n b : nat)
    (dims : list nat) :
  n_wires (self w) = n →
  ref_shape src = b :: dims →
  numel dims = 2 ^ n →
  viewable src (2 ^ n) →
  length (load (store w) (storage src)) = b * 2 ^ n →
  (2 * (Z.of_nat (length (ref_shape src)) - 1)
   = Z.of_nat (length (ref_shape (densities (self w)))) - 1)%Z →
  ∃ w' (probs : Tensor real),
    clone_from_states src w = (Ok tt, w')
    ∧ get_probs_1d w' = (Ok probs, w')
    ∧ shape probs = [b; 2 ^ n]
    ∧ ∀ i, i < b →
        let psi := row (2 ^ n) i (load (store w) (storage src)) in
        calc_trace (Z.of_nat i) w' = (Ok (rsum (cnormsq <$> psi), r0), w')
        ∧ row (2 ^ n) i (data probs) = (λ z, cabs (cnormsq z, r0)) <$> psi.
Proof. apply lift_trace_and_probabilities. Qed.

(** X12.  The rank assertion compares the input with the current buffer, not
    with [n_wires]: a state batch in the per-qubit layout
    [[b] + [2] * n_wires] is lifted successfully if and only if the current
    buffer has rank [2 * n_wires + 1] and the strides of the batch allow
    the view [(-1, 2^n_wires, 1)].  With another rank of the buffer the
    call raises [AssertionError], with that rank and strides that do not
    allow the view it raises [RuntimeError]; both change nothing. *)
Theorem X12_lift_accepts_layout_iff_buffer_rank (src : TensorRef) (w : World) (b : nat) :
  ref_shape src = b :: replicate (n_wires (self w)) 2 →
  let n := n_wires (self w) in
  (fst (clone_from_states src w) = Ok tt
   ↔ length (ref_shape (densities (self w))) = 2 * n + 1 ∧ viewable src (2 ^ n))
  ∧ (length (ref_shape (densities (self w))) ≠ 2 * n + 1 →
     clone_from_states src w = (Raise AssertionError, w))
  ∧ (length (ref_shape (densities (self w))) = 2 * n + 1 → ¬ viewable src (2 ^ n) →
     clone_from_states src w = (Raise RuntimeError, w)).
Proof. apply lift_accepts_layout_iff_buffer_rank. Qed.

(** X19.  Whatever methods are called, in whatever order and whether they
    return or raise: [n_wires], [bsz], the snapshot, [_densities], the noise
    model, [_dims], [record_op] and the names stay as they are; the ledger
    is as before or empty (no method adds an entry); the output is only
    extended; the store only grows and the storages that existed keep their
    contents. *)
Theorem X19_session_evolves (cs : list Call) (w : World) : evolves w (run_calls cs w).
Proof. apply session_evolves. Qed.

End SharedProperties.

(** ** The further properties on concrete devices *)

Section FurtherRuns.
#[local] Existing Instance contiguous_layout.

(** X1 on one wire and a batch of two: index 2 is out of range. *)
Lemma X1_witness :
  get_2d_matrix 2 (boot 1 2) = (Raise IndexError, boot 1 2)
  ∧ calc_trace 2 (boot 1 2) = (Raise IndexError, boot 1 2)
  ∧ print_2d 2 (boot 1 2) = (Raise IndexError, boot 1 2).
Proof.
  apply (X1_views_index_out_of_range (boot 1 2) 2 [2; 2] 2); [reflexivity|lia].
Defined.

(** X2 on the same device: index [-1] is index 1. *)
Lemma X2_witness :
  get_2d_matrix (-1) (boot 1 2) = get_2d_matrix (-1 + Z.of_nat 2) (boot 1 2)
  ∧ calc_trace (-1) (boot 1 2) = calc_trace (-1 + Z.of_nat 2) (boot 1 2)
  ∧ print_2d (-1) (boot 1 2) = print_2d (-1 + Z.of_nat 2) (boot 1 2).
Proof.
  apply (X2_views_negative_index (boot 1 2) 2 [2; 2] (-1)); [reflexivity|lia].
Defined.

(** X3 on the same device, at index 1. *)
Lemma X3_witness :
  let w := boot 1 2 in
  let m := 2 ^ n_wires (self w) in
  let e := row (numel [2; 2]) (py_index 2 1) (load (store w) (storage (densities (self w)))) in
  get_2d_matrix 1 w = (Ok (mkTensor [m; m] e), w)
  ∧ calc_trace 1 w = (Ok (csum (mat_diag m m e)), w)
  ∧ print_2d 1 w = (Ok tt, mkWorld (store w) (self w) (stdout w ++ [mkTensor [m; m] e])).
Proof.
  assert (ref_shape (densities (self (boot 1 2))) = [2; 2; 2]) as Hs by reflexivity.
  assert (- Z.of_nat 2 ≤ 1 < Z.of_nat 2)%Z as Hi by lia.
  exact (proj1 (X3_indexed_views_need_entry_count (boot 1 2) 2 [2; 2] 1 Hs Hi) eq_refl).
Defined.

(** X4 on the same device. *)
Lemma X4_witness :
  let w := boot 1 2 in
  let m := 2 ^ n_wires (self w) in
  let d := load (store w) (storage (densities (self w))) in
  get_densities_2d w = (Ok (mkTensor [2; m; m] d), w)
  ∧ get_probs_1d w
    = (Ok (mkTensor [2; m] (cabs <$> mjoin (mat_diag m m <$> chunks 2 (m * m) d))), w).
Proof.
  exact (proj1 (proj2 (X4_batched_views_need_entry_count (boot 1 2)) 2 [2; 2] eq_refl)
           eq_refl).
Defined.

(** X5 on the same device, at index 1. *)
Lemma X5_witness :
  let w := boot 1 2 in
  let m := 2 ^ n_wires (self w) in
  ∃ (all2d one2d : Tensor complex) (probs : Tensor real) (tr : complex),
    get_densities_2d w = (Ok all2d, w)
    ∧ get_2d_matrix (Z.of_nat 1) w = (Ok one2d, w)
    ∧ get_probs_1d w = (Ok probs, w)
    ∧ calc_trace (Z.of_nat 1) w = (Ok tr, w)
    ∧ row (m * m) 1 (data all2d) = data one2d
    ∧ row m 1 (data probs) = cabs <$> mat_diag m m (data one2d)
    ∧ tr = csum (mat_diag m m (data one2d)).
Proof.
  apply (X5_batched_views_agree_with_indexed (boot 1 2) 2 1 [2; 2]);
    [reflexivity|reflexivity|lia].
Defined.

(** X6 on two wires and a flat batch of rank 2. *)
Lemma X6_witness :
  let '(w, src) := with_tensor flat_states (boot 2 1) in
  clone_from_states src w = (Raise AssertionError, w).
Proof.
  apply (X6_lift_rank_mismatch (snd (with_tensor flat_states (boot 2 1)))
           (fst (with_tensor flat_states (boot 2 1)))).
  vm_compute. discriminate.
Defined.

(** X7 on one wire and one state of four amplitudes. *)
Lemma X7_witness :
  let '(w, src) := with_tensor wide_state (boot 1 1) in
  fst (clone_from_states src w) = Raise RuntimeError.
Proof.
  apply (X7_lift_wrong_size_raises (snd (with_tensor wide_state (boot 1 1)))
           (fst (with_tensor wide_state (boot 1 1))) 1 [4]);
    [reflexivity|reflexivity|lia|vm_compute; lia].
Defined.

(** X8 on one wire and an empty batch of four amplitudes per state. *)
Lemma X8_witness :
  let '(w, src) := with_tensor empty_states (boot 1 1) in
  ∃ w', clone_from_states src w = (Ok tt, w')
    ∧ value_of (store w') (densities (self w')) = mkTensor (0 :: replicate (2 * 1) 2) []
    ∧ get_probs_1d w' = (Ok (mkTensor [0; 2 ^ 1] []), w')
    ∧ ∀ i, calc_trace i w' = (Raise IndexError, w').
Proof.
  apply (X8_lift_of_empty_batch (snd (with_tensor empty_states (boot 1 1)))
           (fst (with_tensor empty_states (boot 1 1))) [4]); reflexivity.
Defined.

(** X9 on two wires and two states in the per-qubit layout. *)
Lemma X9_witness :
  let '(w, src) := with_tensor layout_states (boot 2 1) in
  ∃ w', clone_from_states src w = (Ok tt, w')
    ∧ ref_shape (densities (self w')) = 2 :: replicate (2 * 2) 2
    ∧ ∀ i, i < 2 → ∃ m,
        get_2d_matrix (Z.of_nat i) w' = (Ok m, w')
        ∧ shape m = [2 ^ 2; 2 ^ 2]
        ∧ length (data m) = 2 ^ 2 * 2 ^ 2
        ∧ ∀ j k, j < 2 ^ 2 → k < 2 ^ 2 →
            entry (2 ^ 2) (data m) j k
            = cmul (nth j (row (2 ^ 2) i (load (store w) (storage src))) c0)
                   (cconj (nth k (row (2 ^ 2) i (load (store w) (storage src))) c0))
            ∧ entry (2 ^ 2) (data m) j k = cconj (entry (2 ^ 2) (data m) k j).
Proof.
  apply (X9_lift_gives_hermitian_outer_products
           (fst (with_tensor layout_states (boot 2 1)))
           (snd (with_tensor layout_states (boot 2 1))) 2 2 [2; 2]); reflexivity.
Defined.

(** X10 on the same input. *)
Lemma X10_witness :
  let '(w, src) := with_tensor layout_states (boot 2 1) in
  ∃ w' (probs : Tensor real),
    clone_from_states src w = (Ok tt, w')
    ∧ get_probs_1d w' = (Ok probs, w')
    ∧ shape probs = [2; 2 ^ 2]
    ∧ ∀ i, i < 2 →
        let psi := row (2 ^ 2) i (load (store w) (storage src)) in
        calc_trace (Z.of_nat i) w' = (Ok (rsum (cnormsq <$> psi), r0), w')
        ∧ row (2 ^ 2) i (data probs) = (λ z, cabs (cnormsq z, r0)) <$> psi.
Proof.
  apply (X10_lift_trace_and_probabilities
           (fst (with_tensor layout_states (boot 2 1)))
           (snd (with_tensor layout_states (boot 2 1))) 2 2 [2; 2]); reflexivity.
Defined.

(** X11 on the same input: the basis states 0 and 1 of two wires. *)
Lemma X11_witness :
  let '(w, src) := with_tensor layout_states (boot 2 1) in
  ∃ w' (probs : Tensor real),
    clone_from_states src w = (Ok tt, w')
    ∧ get_probs_1d w' = (Ok probs, w')
    ∧ ∀ i k, [0; 1] !! i = Some k →
        row (2 ^ 2) i (data probs) = <[k := r1]> (replicate (2 ^ 2) r0)
        ∧ calc_trace (Z.of_nat i) w' = (Ok c1, w').
Proof.
  apply (X11_lift_of_basis_states
           (fst (with_tensor layout_states (boot 2 1)))
           (snd (with_tensor layout_states (boot 2 1))) 2 [2; 2] [0; 1]);
    try reflexivity.
  repeat constructor.
Defined.

(** X12 on the same input: the new device has a buffer of rank 5 and the
    batch is contiguous. *)
Lemma X12_witness :
  let '(w, src) := with_tensor layout_states (boot 2 1) in
  fst (clone_from_states src w) = Ok tt
  ↔ length (ref_shape (densities (self w))) = 2 * n_wires (self w) + 1
    ∧ viewable src (2 ^ n_wires (self w)).
Proof.
  exact (proj1 (X12_lift_accepts_layout_iff_buffer_rank
                  (snd (with_tensor layout_states (boot 2 1)))
                  (fst (with_tensor layout_states (boot 2 1))) 2 eq_refl)).
Defined.

(** X13 on two wires: one state of eight amplitudes, then a proper lift. *)
Lemma X13_witness :
  let '(w0, src2) := with_tensor single_state (boot 2 1) in
  let '(w, src) := with_tensor oversized_state w0 in
  let w' := snd (clone_from_states src w) in
  fst (clone_from_states src w) = Raise RuntimeError
  ∧ clone_from_states src2 w' = (Raise AssertionError, w').
Proof.
  apply (X13_failed_lift_blocks_later_lifts
           (snd (with_tensor oversized_state (fst (with_tensor single_state (boot 2 1)))))
           (snd (with_tensor single_state (boot 2 1)))
           (fst (with_tensor oversized_state (fst (with_tensor single_state (boot 2 1)))))
           1 1 [2; 4]);
    try reflexivity; vm_compute; lia.
Defined.

(** X14 on one wire and its two basis states. *)
Lemma X14_witness :
  let '(w, src) := with_tensor basis_states (boot 1 1) in
  ∃ w', clone_from_states src w = (Ok tt, w')
    ∧ storage (densities (self w')) = length (store w)
    ∧ storage (densities (self w')) ≠ storage src
    ∧ ∀ a x, a < length (store w) →
        value_of (overwrite a x (store w')) (densities (self w'))
        = value_of (store w') (densities (self w')).
Proof.
  apply (X14_lift_copies_into_fresh_storage
           (snd (with_tensor basis_states (boot 1 1)))
           (fst (with_tensor basis_states (boot 1 1))) 2 [2]);
    try reflexivity. vm_compute. lia.
Defined.

(** X15 on one wire and three density matrices. *)
Lemma X15_witness :
  let '(w, src) := with_tensor three_densities (boot 1 1) in
  let m := 2 ^ n_wires (self w) in
  let d := load (store w) (storage src) in
  ∃ w', clone_densities src w = (Ok tt, w')
    ∧ get_densities_2d w' = (Ok (mkTensor [3; m; m] d), w')
    ∧ ∀ i, (- Z.of_nat 3 ≤ i < Z.of_nat 3)%Z →
        get_2d_matrix i w' = (Ok (mkTensor [m; m] (row (m * m) (py_index 3 i) d)), w').
Proof.
  apply (X15_clone_densities_then_views
           (snd (with_tensor three_densities (boot 1 1)))
           (fst (with_tensor three_densities (boot 1 1))) 3 [2; 2]); reflexivity.
Defined.

(** X16 on one wire and a vector of three entries. *)
Lemma X16_witness :
  let '(w, src) := with_tensor vector3 (boot 1 1) in
  ∃ w', clone_densities src w = (Ok tt, w')
    ∧ get_probs_1d w' = (Raise RuntimeError, w')
    ∧ get_densities_2d w' = (Raise RuntimeError, w')
    ∧ ∀ i, (- Z.of_nat 3 ≤ i < Z.of_nat 3)%Z →
        get_2d_matrix i w' = (Raise RuntimeError, w')
        ∧ calc_trace i w' = (Raise RuntimeError, w').
Proof.
  destruct (X16_clone_densities_wrong_size_fails_later
              (snd (with_tensor vector3 (boot 1 1)))
              (fst (with_tensor vector3 (boot 1 1)))) as (w' & Hrun & _ & Hbad).
  assert (numel [] ≠ 2 ^ 1 * 2 ^ 1) as Hn by (vm_compute; lia).
  assert (1 ≤ 3) as Hb by lia.
  destruct (Hbad 3 [] eq_refl Hn) as [Hbatched Hindexed].
  destruct (Hbatched Hb) as [Hp H2d].
  exists w'. split; [exact Hrun|]. split; [exact Hp|]. split; [exact H2d|exact Hindexed].
Defined.

(** X20 on a session around a clone from three density matrices. *)
Lemma X20_witness :
  let '(w, src) := with_tensor three_densities (boot 1 1) in
  backed (store (run_calls (sample_session src) w))
         (densities (self (run_calls (sample_session src) w))).
Proof.
  apply (X20_session_keeps_buffer_backed
           (sample_session (snd (with_tensor three_densities (boot 1 1))))
           (fst (with_tensor three_densities (boot 1 1)))).
  - vm_compute. split; [lia|reflexivity].
  - intros c t Hc Ht. apply list_elem_of_In in Hc. simpl in Hc.
    destruct Hc as [<-|[<-|[<-|[<-|[]]]]]; simpl in Ht; try discriminate Ht.
    injection Ht as <-. vm_compute. split; [lia|reflexivity].
Defined.

(** X22 on two wires and two states in the per-qubit layout, contiguous
    in memory. *)
Lemma X22_witness :
  let '(w, src) := with_tensor layout_states (boot 2 1) in
  viewable src (2 ^ 2)
  ∧ ∃ w', clone_from_states src w = (Ok tt, w')
      ∧ value_of (store w') (densities (self w'))
        = mkTensor (2 :: replicate (2 * 2) 2)
            (lifted (2 ^ 2) 2 (load (store w) (storage src))).
Proof.
  apply (X22_lift_of_contiguous_batch
           (fst (with_tensor layout_states (boot 2 1)))
           (snd (with_tensor layout_states (boot 2 1))) 2 2 [2; 2]); reflexivity.
Defined.

End FurtherRuns.

Section SwappedRuns.
#[local] Existing Instance swapped_layout.

(** X23 on two wires and the same two states with the two last axes
    swapped in memory: shape [[2, 2, 2]], strides [(4, 1, 2)]. *)
Lemma X23_witness :
  let '(w, src) := with_tensor layout_states (boot 2 1) in
  strides_of src = [4; 1; 2]
  ∧ clone_from_states src w = (Raise RuntimeError, w).
Proof.
  split; [reflexivity|].
  apply (X23_lift_of_unviewable_batch
           (snd (with_tensor layout_states (boot 2 1)))
           (fst (with_tensor layout_states (boot 2 1))) 2 [2; 2]);
    [reflexivity|reflexivity|vm_compute; discriminate].
Defined.

End SwappedRuns.
